(** * caddy-auth-jwt: the authentication decision engine and the token grantor

    A shallow embedding of [AuthProvider.Authenticate] and of
    [TokenGrantor.GrantToken] (plugin.go and the grantor that follows it),
    with the HTTP response writer, the forwarded request, the provider pool
    and the heap of validator options as explicit state.

    Conventions.
    - A Go [error] is a value of type [error]; the nil error is [None].
    - Pointer fields that [Authenticate] dereferences unconditionally
      ([TokenValidator], [r.URL], the logger) are modelled by the value they
      point to: the development covers configurations in which registration
      has installed them.  [*UserClaims], which the code tests against nil,
      is an [option].  [*TokenValidatorOptions] is a location in a heap,
      because the object is shared between the copies of a provider.  The
      header maps of the writer and of the request exist, as they do for
      every request the server hands over.
    - Logging ([m.logger.Debug], [m.logger.Error]) has no effect on any
      value the function computes and is left out. *)

From Stdlib Require Import Strings.Ascii Strings.String Strings.Byte.
From stdpp Require Import base strings list gmap.

Open Scope string_scope.
Open Scope list_scope.

(** ** Strings (package strings) *)

Module strings.

(** [strings.HasPrefix(s, prefix)]. *)
Fixpoint HasPrefix (s pre : string) : bool :=
  match pre, s with
  | EmptyString, _ => true
  | String c pre', String d s' => bool_decide (c = d) && HasPrefix s' pre'
  | String _ _, EmptyString => false
  end.

(** [strings.Contains(s, substr)]: [substr] occurs at some offset of [s]. *)
Fixpoint Contains (s substr : string) : bool :=
  HasPrefix s substr ||
  match s with
  | EmptyString => false
  | String _ s' => Contains s' substr
  end.

(** [strings.Join(elems, sep)]. *)
Fixpoint Join (elems : list string) (sep : string) : string :=
  match elems with
  | [] => ""
  | [e] => e
  | e :: rest => e +:+ sep +:+ Join rest sep
  end.

End strings.

(** ** Errors *)

(** The two dynamic types of error values that occur: the package's own
    [strError] constants (a string type), and formatted errors as
    [fmt.Errorf] builds them. *)
Inductive error : Type :=
| strError (msg : string)
| errorString (msg : string).

(** [err.Error()]. *)
Definition Error (e : error) : string :=
  match e with
  | strError msg => msg
  | errorString msg => msg
  end.

(** The [%s] verb of a format, replaced by one argument. *)
Fixpoint Sprintf (format arg : string) : string :=
  match format with
  | String "%"%char (String "s"%char rest) => arg +:+ rest
  | String c rest => String c (Sprintf rest arg)
  | EmptyString => EmptyString
  end.

(** Modelled from the spec: [strError.WithArgs], whose declaration is not
    among the sources.  The error it returns names the argument: it is the
    formatted error whose text is the receiver's format with the argument
    in place of the verb. *)
Definition WithArgs (e : error) (arg : string) : error :=
  errorString (Sprintf (Error e) arg).

(** Plugin errors. *)
Definition ErrProvisonFailed : error :=
  strError "authorization provider provisioning error".

(** Grantor errors. *)
Definition ErrEmptySecret : error :=
  strError "grantor token secret not configured".
Definition ErrNoClaims : error :=
  strError "provided claims are nil".
Definition ErrUnsupportedSigningMethod : error :=
  strError "grantor does not support %s token signing method".

(** ** The claim set *)

(** [UserClaims]: the fields the two functions read. *)
Record UserClaims : Type := {
  Subject : string;
  Email : string;
  claims_Name : string;
  Roles : list string;
}.

(** ** Token grantor *)

(** [CommonTokenConfig], embedded in [TokenGrantor]: the field read here. *)
Record TokenGrantor : Type := {
  TokenSecret : string;
}.

Section Grantor.

(** The table of registered signing methods (its keys) and the claim set's
    own signing routine; neither is declared in the sources. *)
Variable methods : gset string.
Variable GetToken :
  UserClaims -> string -> list Byte.byte -> string * option error.

(** [func (g *TokenGrantor) Validate() error] *)
Definition Validate (g : TokenGrantor) : option error :=
  if bool_decide (TokenSecret g = "") then Some ErrEmptySecret else None.

(** [func (g *TokenGrantor) GrantToken(method string, claims *UserClaims)
    (string, error)] *)
Definition GrantToken (g : TokenGrantor) (method : string)
    (claims : option UserClaims) : string * option error :=
  if negb (bool_decide (method ∈ methods)) then
    ("", Some (WithArgs ErrUnsupportedSigningMethod method))
  else
    match claims with
    | None => ("", Some ErrNoClaims)
    | Some c =>
        if bool_decide (TokenSecret g = "") then ("", Some ErrEmptySecret)
        else GetToken c method (list_byte_of_string (TokenSecret g))
    end.

End Grantor.

(** ** HTTP (package net/http) *)

Module http.

(** [http.Header]: a map from canonical header names to their values.
    Every name written below is already in canonical form, so the
    canonicalisation [Set] and [Add] apply to their key is the identity. *)
Abbreviation Header := (gmap string (list string)).

Definition Header_Set (h : Header) (key value : string) : Header :=
  <[key := [value]]> h.

Definition Header_Add (h : Header) (key value : string) : Header :=
  <[key := default [] (h !! key) ++ [value]]> h.

Definition Header_Values (h : Header) (key : string) : list string :=
  default [] (h !! key).

(** [http.ResponseWriter], an interface: the header map [Header()] hands
    out, and the calls of [WriteHeader] and of [Write] received so far, in
    order. *)
Record ResponseWriter : Type := {
  rw_header : Header;
  rw_codes : list Z;
  rw_body : list string;
}.

(** [*http.Request]: the parts the engine and its collaborators read. *)
Record Request : Type := {
  Method : string;
  URL_Path : string;
  RequestURI : string;
  req_header : Header;
}.

End http.

(** ** Package caddyauth *)

Module caddyauth.

(** [caddyauth.User]. *)
Record User : Type := {
  ID : string;
  Metadata : gmap string string;
}.

(** The zero value [caddyauth.User{}]. *)
Definition zero : User := {| ID := ""; Metadata := ∅ |}.

(** [user.Metadata[key] = value] *)
Definition Metadata_set (user : User) (key value : string) : User :=
  {| ID := ID user; Metadata := <[key := value]> (Metadata user) |}.

End caddyauth.

(** ** Configuration *)

Abbreviation loc := positive.

(** [TokenValidatorOptions]: the metadata map is the one field
    [Authenticate] touches. *)
Record TokenValidatorOptions : Type := {
  Metadata : gmap string string;
}.

Global Instance TokenValidatorOptions_inhabited : Inhabited TokenValidatorOptions :=
  populate {| Metadata := ∅ |}.

(** [opts.Metadata[key] = value] *)
Definition Metadata_set (key value : string) (o : TokenValidatorOptions) :
    TokenValidatorOptions :=
  {| Metadata := <[key := value]> (Metadata o) |}.

(** [TokenValidator]: [Cookies] is a map ranged over for its keys, the
    cookie names the validator reads tokens from. *)
Record TokenValidator : Type := {
  Cookies : gset string;
}.

(** [AuthProvider], without the logger, the start time and the two lists
    of pointers ([AccessList], [TrustedTokens]); [Authenticate] reads none
    of those values. *)
Record AuthProvider : Type := {
  Name : string;
  Provisioned : bool;
  ProvisionFailed : bool;
  Context : string;
  PrimaryInstance : bool;
  AuthURLPath : string;
  AuthRedirectQueryDisabled : bool;
  AuthRedirectQueryParameter : string;
  m_TokenValidator : TokenValidator;
  m_TokenValidatorOptions : loc;
  AllowedTokenTypes : list string;
  AllowedTokenSources : list string;
  PassClaims : bool;
  StripToken : bool;
  ForbiddenURL : string;
  ValidateMethodPath : bool;
  ValidateAccessListPathClaim : bool;
  PassClaimsWithHeaders : bool;
}.

(** What the validator hands back: [(claims, validUser, err)]. *)
Abbreviation Verdict := (option UserClaims * bool * option error)%type.

(** What [Authenticate] hands back: [(caddyauth.User, bool, error)]. *)
Abbreviation Result := (caddyauth.User * bool * option error)%type.

(** The substring by which a forbidden role is recognised. *)
Definition forbiddenMarker : string :=
  "user role is valid, but not allowed by".

(** The value of an expiring [Set-Cookie] header for cookie [k]. *)
Definition expired (k : string) : string :=
  k +:+ "=delete; path=/; expires=Thu, 01 Jan 1970 00:00:00 GMT".

(** The request headers that carry claims to the upstream handler. *)
Definition tokenHeaders : list string :=
  ["X-Token-User-Name"; "X-Token-User-Email"; "X-Token-User-Roles";
   "X-Token-Subject"].

(** Modelled from the spec: [TokenValidatorOptions.Clone], whose declaration
    is not among the sources.  The clone is an independent copy: a new
    object, at a location that is not in use, with the contents of the
    original. *)
Definition Clone (h : gmap loc TokenValidatorOptions) (p : loc) :
    gmap loc TokenValidatorOptions * loc :=
  let p' := fresh (dom h) in (<[p' := h !!! p]> h, p').

(** ** The authentication decision engine *)

(** Calls made to the collaborators, as [Authenticate] makes them: the pool
    is asked for a name; the validator receives the request, the options
    pointer and (recorded here) what that pointer holds at that moment. *)
Inductive Call : Type :=
| CallProvision (name : string)
| CallAuthorize (rq : http.Request) (opts : loc) (o : TokenValidatorOptions).

(** The collaborators, none of which is declared in the sources.
    - [Pool] and [Provision] are [AuthProviderPool] and its method of that
      name, which returns the provisioned instance or an error and may
      update the pool.
    - [Authorize] is the validator's decision, a function of the validator,
      the request and the options it is handed; by its contract (section 6
      of the specification) it reports a verdict and changes neither.
    - [redirectTarget] is the formatting done by
      [addRedirectLocationHeader].
    - [rangeOrder] is the order in which [range] yields the keys of a map
      on this run; the language fixes only that every key comes once. *)
Class Collaborators : Type := {
  Pool : Type;
  Provision : Pool -> string -> Pool * (error + AuthProvider);
  Authorize : TokenValidator -> http.Request -> TokenValidatorOptions -> Verdict;
  redirectTarget : http.Request -> string -> bool -> string -> option string;
  rangeOrder : gset string -> list string;
  rangeOrder_perm : ∀ s, rangeOrder s ≡ₚ elements s;
}.

(** The terminal outcomes of a request. *)
Inductive Outcome : Type :=
| ProvisioningFailure
| Forbidden
| ValidationError
| InvalidUser
| NilClaims
| Success.

(** The body each outcome writes (section 6 of the specification); success
    passes the request through and writes none. *)
Definition bodyOf (o : Outcome) : option string :=
  match o with
  | ProvisioningFailure => Some "Internal Server Error"
  | Forbidden => Some "Forbidden"
  | ValidationError => Some "Unauthorized"
  | InvalidUser => Some "Unauthorized User"
  | NilClaims => Some "User Unauthorized"
  | Success => None
  end.

(** The status codes each outcome can write. *)
Definition statusesOf (o : Outcome) : list Z :=
  match o with
  | ProvisioningFailure => [500%Z]
  | Forbidden => [303%Z; 403%Z]
  | ValidationError | InvalidUser | NilClaims => [302%Z]
  | Success => []
  end.

Section Engine.

Context {E : Collaborators}.

(** Everything a call can read or change: the response writer [w], the
    request [r], the global [ProviderPool], the heap the options live in,
    and the calls made so far. *)
Record World : Type := {
  resp : http.ResponseWriter;
  req : http.Request;
  pool : Pool;
  heap : gmap loc TokenValidatorOptions;
  calls : list Call;
}.

Definition with_resp (f : http.ResponseWriter -> http.ResponseWriter)
    (st : World) : World :=
  {| resp := f (resp st); req := req st; pool := pool st;
     heap := heap st; calls := calls st |}.

Definition with_req (f : http.Request -> http.Request) (st : World) : World :=
  {| resp := resp st; req := f (req st); pool := pool st;
     heap := heap st; calls := calls st |}.

Definition with_heap
    (f : gmap loc TokenValidatorOptions -> gmap loc TokenValidatorOptions)
    (st : World) : World :=
  {| resp := resp st; req := req st; pool := pool st;
     heap := f (heap st); calls := calls st |}.

(** *** State monad *)

Definition M (A : Type) : Type := World -> A * World.

#[global] Instance M_ret : MRet M := λ A a st, (a, st).
#[global] Instance M_bind : MBind M :=
  λ A B f c st, let '(a, st') := c st in f a st'.

(** [for _, x := range l { body }] *)
Fixpoint forRange {A : Type} (l : list A) (body : A -> M unit) : M unit :=
  match l with
  | [] => mret tt
  | x :: l' => body x;; forRange l' body
  end.

(** *** The response writer *)

(** [w.Header().Set(key, value)] *)
Definition w_Header_Set (key value : string) : M unit := λ st,
  (tt, with_resp (λ w, {| http.rw_header := http.Header_Set (http.rw_header w) key value;
                          http.rw_codes := http.rw_codes w;
                          http.rw_body := http.rw_body w |}) st).

(** [w.Header().Add(key, value)] *)
Definition w_Header_Add (key value : string) : M unit := λ st,
  (tt, with_resp (λ w, {| http.rw_header := http.Header_Add (http.rw_header w) key value;
                          http.rw_codes := http.rw_codes w;
                          http.rw_body := http.rw_body w |}) st).

(** [w.WriteHeader(code)] *)
Definition w_WriteHeader (code : Z) : M unit := λ st,
  (tt, with_resp (λ w, {| http.rw_header := http.rw_header w;
                          http.rw_codes := http.rw_codes w ++ [code];
                          http.rw_body := http.rw_body w |}) st).

(** [w.Write([]byte(body))] *)
Definition w_Write (body : string) : M unit := λ st,
  (tt, with_resp (λ w, {| http.rw_header := http.rw_header w;
                          http.rw_codes := http.rw_codes w;
                          http.rw_body := http.rw_body w ++ [body] |}) st).

(** *** The request *)

(** Reading [r]. *)
Definition r_get : M http.Request := λ st, (req st, st).

(** [r.Header.Set(key, value)] *)
Definition r_Header_Set (key value : string) : M unit := λ st,
  (tt, with_req (λ r, {| http.Method := http.Method r;
                         http.URL_Path := http.URL_Path r;
                         http.RequestURI := http.RequestURI r;
                         http.req_header := http.Header_Set (http.req_header r) key value |}) st).

(** *** Calls to the collaborators *)

(** [ProviderPool.Provision(name)] *)
Definition ProviderPool_Provision (name : string) : M (error + AuthProvider) := λ st,
  let '(pool', res) := Provision (pool st) name in
  (res, {| resp := resp st; req := req st; pool := pool';
           heap := heap st; calls := calls st ++ [CallProvision name] |}).

(** [opts.Clone()] *)
Definition opts_Clone (opts : loc) : M loc := λ st,
  let '(h', p') := Clone (heap st) opts in (p', with_heap (λ _, h') st).

(** [opts.Metadata[key] = value] *)
Definition opts_Metadata_set (opts : loc) (key value : string) : M unit := λ st,
  (tt, with_heap (alter (Metadata_set key value) opts) st).

(** [v.Authorize(r, opts)] *)
Definition tv_Authorize (v : TokenValidator) (opts : loc) : M Verdict := λ st,
  let o := heap st !!! opts in
  (Authorize v (req st) o,
   {| resp := resp st; req := req st; pool := pool st; heap := heap st;
      calls := calls st ++ [CallAuthorize (req st) opts o] |}).

(** Modelled from the spec: [addRedirectLocationHeader], whose declaration
    is not among the sources.  It computes the login redirect target from
    the configured path, the flag that disables the query parameter and
    the parameter's name, and attaches it to the response as the
    [Location] header when there is one to attach. *)
Definition addRedirectLocationHeader (authURLPath : string)
    (authRedirectQueryDisabled : bool) (authRedirectParameter : string) : M unit :=
  r ← r_get;
  match redirectTarget r authURLPath authRedirectQueryDisabled authRedirectParameter with
  | Some target => w_Header_Set "Location" target
  | None => mret tt
  end.

(** *** Authenticate *)

(** Lines 118-131, the lazy bind: a receiver that is not provisioned is
    replaced by the instance the pool returns ([m = *provisionedInstance]
    assigns to the receiver, which is a copy), or the pool's error is
    handed on. *)
Definition lazyBind (m : AuthProvider) : M (error + AuthProvider) :=
  if negb (Provisioned m) then ProviderPool_Provision (Name m)
  else mret (inr m).

(** Lines 133-140: the options the validator is to receive. *)
Definition prepareOptions (m : AuthProvider) : M loc :=
  if ValidateMethodPath m then
    opts ← opts_Clone (m_TokenValidatorOptions m);
    r ← r_get;
    opts_Metadata_set opts "method" (http.Method r);;
    opts_Metadata_set opts "path" (http.URL_Path r);;
    mret opts
  else
    mret (m_TokenValidatorOptions m).

(** Lines 133-142: option preparation and the call of the validator. *)
Definition validate (m : AuthProvider) : M Verdict :=
  opts ← prepareOptions m;
  tv_Authorize (m_TokenValidator m) opts.

(** The loop [for k := range m.TokenValidator.Cookies { ... }]. *)
Definition expireCookies (m : AuthProvider) : M unit :=
  forRange (rangeOrder (Cookies (m_TokenValidator m)))
    (λ k, w_Header_Add "Set-Cookie" (expired k)).

(** Lines 194-224: the identity record and the forwarded headers. *)
Definition identify (m : AuthProvider) (userClaims : UserClaims) : M Result :=
  let userIdentity :=
    {| caddyauth.ID := Email userClaims;
       caddyauth.Metadata := {[ "roles" := strings.Join (Roles userClaims) " " ]} |} in
  userIdentity ←
    (if negb (bool_decide (claims_Name userClaims = "")) then
       let userIdentity :=
         caddyauth.Metadata_set userIdentity "name" (claims_Name userClaims) in
       (if PassClaimsWithHeaders m
        then r_Header_Set "X-Token-User-Name" (claims_Name userClaims)
        else mret tt);;
       mret userIdentity
     else mret userIdentity);
  userIdentity ←
    (if negb (bool_decide (Email userClaims = "")) then
       let userIdentity :=
         caddyauth.Metadata_set userIdentity "email" (Email userClaims) in
       (if PassClaimsWithHeaders m
        then r_Header_Set "X-Token-User-Email" (Email userClaims)
        else mret tt);;
       mret userIdentity
     else mret userIdentity);
  (if PassClaimsWithHeaders m then
     (if bool_decide (0 < length (Roles userClaims))%nat
      then r_Header_Set "X-Token-User-Roles" (strings.Join (Roles userClaims) " ")
      else mret tt);;
     (if negb (bool_decide (Subject userClaims = ""))
      then r_Header_Set "X-Token-Subject" (Subject userClaims)
      else mret tt)
   else mret tt);;
  mret (userIdentity, true, None).

(** Lines 143-224: the response to the validator's verdict. *)
Definition respond (m : AuthProvider) (v : Verdict) : M Result :=
  let '(userClaims, validUser, err) := v in
  match err with
  | Some err =>
      if strings.Contains (Error err) forbiddenMarker then
        (if negb (bool_decide (ForbiddenURL m = "")) then
           w_Header_Set "Location" (ForbiddenURL m);;
           w_WriteHeader 303
         else
           w_WriteHeader 403);;
        w_Write "Forbidden";;
        mret (caddyauth.zero, false, Some err)
      else
        expireCookies m;;
        addRedirectLocationHeader (AuthURLPath m) (AuthRedirectQueryDisabled m)
          (AuthRedirectQueryParameter m);;
        w_WriteHeader 302;;
        w_Write "Unauthorized";;
        mret (caddyauth.zero, false, Some err)
  | None =>
      if negb validUser then
        expireCookies m;;
        addRedirectLocationHeader (AuthURLPath m) (AuthRedirectQueryDisabled m)
          (AuthRedirectQueryParameter m);;
        w_WriteHeader 302;;
        w_Write "Unauthorized User";;
        mret (caddyauth.zero, false, None)
      else
        match userClaims with
        | None =>
            expireCookies m;;
            addRedirectLocationHeader (AuthURLPath m) (AuthRedirectQueryDisabled m)
              (AuthRedirectQueryParameter m);;
            w_WriteHeader 302;;
            w_Write "User Unauthorized";;
            mret (caddyauth.zero, false, None)
        | Some userClaims => identify m userClaims
        end
  end.

(** [func (m AuthProvider) Authenticate(w http.ResponseWriter,
    r *http.Request) (caddyauth.User, bool, error)] *)
Definition Authenticate (m : AuthProvider) : M Result :=
  if ProvisionFailed m then
    w_WriteHeader 500;;
    w_Write "Internal Server Error";;
    mret (caddyauth.zero, false, Some ErrProvisonFailed)
  else
    bound ← lazyBind m;
    match bound with
    | inl err =>
        w_WriteHeader 500;;
        w_Write "Internal Server Error";;
        mret (caddyauth.zero, false, Some err)
    | inr m =>
        v ← validate m;
        respond m v
    end.

(** *** The terminal outcomes *)

(** The condition under which a request ends in each outcome, as section
    4.2 of the specification words them. *)
Inductive reaches (m : AuthProvider) (st : World) : Outcome -> Prop :=
| reaches_failed :
    ProvisionFailed m = true ->
    reaches m st ProvisioningFailure
| reaches_unbound err st1 :
    ProvisionFailed m = false ->
    lazyBind m st = (inl err, st1) ->
    reaches m st ProvisioningFailure
| reaches_forbidden m1 st1 c v e st2 :
    ProvisionFailed m = false ->
    lazyBind m st = (inr m1, st1) ->
    validate m1 st1 = ((c, v, Some e), st2) ->
    strings.Contains (Error e) forbiddenMarker = true ->
    reaches m st Forbidden
| reaches_error m1 st1 c v e st2 :
    ProvisionFailed m = false ->
    lazyBind m st = (inr m1, st1) ->
    validate m1 st1 = ((c, v, Some e), st2) ->
    strings.Contains (Error e) forbiddenMarker = false ->
    reaches m st ValidationError
| reaches_invalid m1 st1 c st2 :
    ProvisionFailed m = false ->
    lazyBind m st = (inr m1, st1) ->
    validate m1 st1 = ((c, false, None), st2) ->
    reaches m st InvalidUser
| reaches_nil m1 st1 st2 :
    ProvisionFailed m = false ->
    lazyBind m st = (inr m1, st1) ->
    validate m1 st1 = ((None, true, None), st2) ->
    reaches m st NilClaims
| reaches_success m1 st1 c st2 :
    ProvisionFailed m = false ->
    lazyBind m st = (inr m1, st1) ->
    validate m1 st1 = ((Some c, true, None), st2) ->
    reaches m st Success.

(** The response header after the cookies [ks] have been expired. *)
Definition expireAll (h : http.Header) (ks : list string) : http.Header :=
  foldl (λ h k, http.Header_Add h "Set-Cookie" (expired k)) h ks.

(** What the three unauthorized branches do to the response: from writer
    [w], for the bound configuration [m] and request [r], with body
    [text]. *)
Definition unauthorized (m : AuthProvider) (r : http.Request) (text : string)
    (w w' : http.ResponseWriter) : Prop :=
  http.rw_codes w' = http.rw_codes w ++ [302%Z] ∧
  http.rw_body w' = http.rw_body w ++ [text] ∧
  (∃ ks, ks ≡ₚ elements (Cookies (m_TokenValidator m)) ∧
     http.Header_Values (http.rw_header w') "Set-Cookie" =
     http.Header_Values (http.rw_header w) "Set-Cookie" ++ map expired ks) ∧
  http.rw_header w' !! "Location" =
    match redirectTarget r (AuthURLPath m) (AuthRedirectQueryDisabled m)
            (AuthRedirectQueryParameter m) with
    | Some target => Some [target]
    | None => http.rw_header w !! "Location"
    end ∧
  (∀ key, key ≠ "Set-Cookie" -> key ≠ "Location" ->
     http.rw_header w' !! key = http.rw_header w !! key).

End Engine.

(** ** The provider registry *)

Definition set_Provisioned (b : bool) (m : AuthProvider) : AuthProvider :=
  {| Name := Name m; Provisioned := b; ProvisionFailed := ProvisionFailed m;
     Context := Context m; PrimaryInstance := PrimaryInstance m;
     AuthURLPath := AuthURLPath m;
     AuthRedirectQueryDisabled := AuthRedirectQueryDisabled m;
     AuthRedirectQueryParameter := AuthRedirectQueryParameter m;
     m_TokenValidator := m_TokenValidator m;
     m_TokenValidatorOptions := m_TokenValidatorOptions m;
     AllowedTokenTypes := AllowedTokenTypes m;
     AllowedTokenSources := AllowedTokenSources m;
     PassClaims := PassClaims m; StripToken := StripToken m;
     ForbiddenURL := ForbiddenURL m; ValidateMethodPath := ValidateMethodPath m;
     ValidateAccessListPathClaim := ValidateAccessListPathClaim m;
     PassClaimsWithHeaders := PassClaimsWithHeaders m |}.

Definition set_ProvisionFailed (b : bool) (m : AuthProvider) : AuthProvider :=
  {| Name := Name m; Provisioned := Provisioned m; ProvisionFailed := b;
     Context := Context m; PrimaryInstance := PrimaryInstance m;
     AuthURLPath := AuthURLPath m;
     AuthRedirectQueryDisabled := AuthRedirectQueryDisabled m;
     AuthRedirectQueryParameter := AuthRedirectQueryParameter m;
     m_TokenValidator := m_TokenValidator m;
     m_TokenValidatorOptions := m_TokenValidatorOptions m;
     AllowedTokenTypes := AllowedTokenTypes m;
     AllowedTokenSources := AllowedTokenSources m;
     PassClaims := PassClaims m; StripToken := StripToken m;
     ForbiddenURL := ForbiddenURL m; ValidateMethodPath := ValidateMethodPath m;
     ValidateAccessListPathClaim := ValidateAccessListPathClaim m;
     PassClaimsWithHeaders := PassClaimsWithHeaders m |}.

(** Modelled from the spec: [AuthProviderPool.Provision], whose declaration
    is not among the sources.  The registry maps a policy name to its
    configuration.  A provisioned entry is returned at once.  An entry that
    is not yet provisioned goes through the one-time [setup] and is marked
    provisioned; when the setup fails the entry is marked failed for good,
    and this and every later call for the name fail with the provisioning
    error, without a new attempt.  A name without an entry cannot be
    provisioned either. *)
Definition registry_Provision (setup : AuthProvider -> option AuthProvider)
    (p : gmap string AuthProvider) (name : string) :
    gmap string AuthProvider * (error + AuthProvider) :=
  match p !! name with
  | None => (p, inl ErrProvisonFailed)
  | Some c =>
      if ProvisionFailed c then (p, inl ErrProvisonFailed)
      else if Provisioned c then (p, inr c)
      else
        match setup c with
        | Some c' =>
            let c' := set_Provisioned true c' in (<[name := c']> p, inr c')
        | None =>
            (<[name := set_ProvisionFailed true c]> p, inl ErrProvisonFailed)
        end
  end.

(** ** A concrete deployment

    One policy, [portal], behind a registry; the validator reads the
    outcome off the request's [Authorization] header.  Used to run the
    engine on concrete requests. *)

Module Sample.

Definition alice : UserClaims :=
  {| Subject := "alice"; Email := "a@b.com"; claims_Name := "Alice";
     Roles := ["admin"; "user"] |}.

(** Claims without a name, a subject or roles. *)
Definition bare : UserClaims :=
  {| Subject := ""; Email := "a@b.com"; claims_Name := ""; Roles := [] |}.

Definition validator : TokenValidator :=
  {| Cookies := {[ "access_token"; "jwt_access_token" ]} |}.

Definition portal : AuthProvider :=
  {| Name := "portal"; Provisioned := true; ProvisionFailed := false;
     Context := "default"; PrimaryInstance := true;
     AuthURLPath := "/auth";
     AuthRedirectQueryDisabled := false;
     AuthRedirectQueryParameter := "redirect_url";
     m_TokenValidator := validator;
     m_TokenValidatorOptions := 1%positive;
     AllowedTokenTypes := []; AllowedTokenSources := [];
     PassClaims := false; StripToken := false;
     ForbiddenURL := "/forbidden"; ValidateMethodPath := true;
     ValidateAccessListPathClaim := false;
     PassClaimsWithHeaders := true |}.

(** The same policy as a request handling instance holds it before its
    first request. *)
Definition unbound : AuthProvider := set_Provisioned false portal.

(** The same policy after its provisioning has failed. *)
Definition broken : AuthProvider := set_ProvisionFailed true unbound.

Definition authorize (_ : TokenValidator) (r : http.Request)
    (_ : TokenValidatorOptions) : Verdict :=
  match http.req_header r !! "Authorization" with
  | Some ["alice"] => (Some alice, true, None)
  | Some ["bare"] => (Some bare, true, None)
  | Some ["nobody"] => (None, true, None)
  | Some ["guest"] => (None, false, None)
  | Some ["intern"] =>
      (None, false,
       Some (errorString "user role is valid, but not allowed by access list"))
  | _ => (None, false, Some (errorString "no token found"))
  end.

Definition target (r : http.Request) (authURLPath : string)
    (disabled : bool) (param : string) : option string :=
  if disabled then Some authURLPath
  else Some (authURLPath +:+ "?" +:+ param +:+ "=" +:+ http.URL_Path r).

#[local] Instance deployment : Collaborators :=
  {| Pool := gmap string AuthProvider;
     Provision := registry_Provision Some;
     Authorize := authorize;
     redirectTarget := target;
     rangeOrder := elements;
     rangeOrder_perm := λ s, reflexivity (elements s) |}.

Definition request (token : string) : http.Request :=
  {| http.Method := "GET"; http.URL_Path := "/app"; http.RequestURI := "/app";
     http.req_header := {[ "Authorization" := [token] ]} |}.

Definition blank : http.ResponseWriter :=
  {| http.rw_header := ∅; http.rw_codes := []; http.rw_body := [] |}.

(** The world in which a request carrying [token] arrives: nothing
    written yet, the policy registered but not provisioned, its options
    object at location 1. *)
Definition arrival (token : string) : World :=
  {| resp := blank; req := request token;
     pool := {[ "portal" := unbound ]};
     heap := {[ 1%positive := {| Metadata := ∅ |} ]};
     calls := [] |}.

(** The signing methods a deployment registers, and a stand-in for the
    claim set's signing routine. *)
Definition signingMethods : gset string := {[ "HS256"; "HS384"; "HS512" ]}.

Definition sign (c : UserClaims) (method : string) (secret : list Byte.byte) :
    string * option error :=
  (method +:+ "." +:+ Email c +:+ "." +:+ string_of_list_byte secret, None).

End Sample.

(** ** The rest of the two files *)

(** [func NewTokenGrantor() *TokenGrantor]: the zero grantor. *)
Definition NewTokenGrantor : TokenGrantor := {| TokenSecret := "" |}.

(** [fmt.Sprintf] for formats whose only verb is [%s]: the verbs take the
    arguments in order, and what is put in is not scanned again. *)
Fixpoint Sprintfs (format : string) (args : list string) : string :=
  match format with
  | String "%"%char (String "s"%char rest) =>
      match args with
      | arg :: args => arg +:+ Sprintfs rest args
      | [] => "%!s(MISSING)" +:+ Sprintfs rest []
      end
  | String c rest => String c (Sprintfs rest args)
  | EmptyString => EmptyString
  end.

(** [fmt.Errorf(format, args...)] for such formats. *)
Definition Errorf (format : string) (args : list string) : error :=
  errorString (Sprintfs format args).

Section Lifecycle.

Context {E : Collaborators}.

(** [ProviderPool.Register(m)], which is not declared in the sources: it is
    handed the pool and the instance (a pointer, so it may update both) and
    returns an error or nil. *)
Variable Register : Pool -> AuthProvider -> Pool * AuthProvider * option error.

(** [func (m *AuthProvider) Provision(ctx caddy.Context) error], lines
    82-99; the logger and the start time it stores are not part of
    [AuthProvider] here, and the log line of a primary instance is left
    out. *)
Definition AuthProvider_Provision (m : AuthProvider) (p : Pool) :
    Pool * AuthProvider * option error :=
  let '(p, m, err) := Register p m in
  match err with
  | Some err =>
      (p, m,
       Some (Errorf
               "authentication provider registration error, instance %s, error: %s"
               [Name m; Error err]))
  | None => (p, m, None)
  end.

(** [func (m *AuthProvider) Validate() error], lines 102-108. *)
Definition AuthProvider_Validate (m : AuthProvider) : option error := None.

End Lifecycle.

(** Whether a recorded call is a call of the validator. *)
Definition isAuthorize (c : Call) : bool :=
  match c with
  | CallAuthorize _ _ _ => true
  | CallProvision _ => false
  end.


(** A registration that refuses an instance without a name, for running
    [AuthProvider_Provision]. *)
Definition sampleRegister (p : gmap string AuthProvider) (m : AuthProvider) :
    gmap string AuthProvider * AuthProvider * option error :=
  if bool_decide (Name m = "") then (p, m, Some (strError "empty provider name"))
  else (<[Name m := m]> p, m, None).

(** More of the sample deployment. *)
Module Cases.

(** The policy with method and path validation off. *)
Definition plain : AuthProvider :=
  {| Name := "portal"; Provisioned := true; ProvisionFailed := false;
     Context := "default"; PrimaryInstance := true;
     AuthURLPath := "/auth";
     AuthRedirectQueryDisabled := false;
     AuthRedirectQueryParameter := "redirect_url";
     m_TokenValidator := Sample.validator;
     m_TokenValidatorOptions := 1%positive;
     AllowedTokenTypes := []; AllowedTokenSources := [];
     PassClaims := false; StripToken := false;
     ForbiddenURL := "/forbidden"; ValidateMethodPath := false;
     ValidateAccessListPathClaim := false;
     PassClaimsWithHeaders := true |}.

(** An instance that was given no name. *)
Definition nameless : AuthProvider :=
  {| Name := ""; Provisioned := false; ProvisionFailed := false;
     Context := "default"; PrimaryInstance := false;
     AuthURLPath := "/auth";
     AuthRedirectQueryDisabled := false;
     AuthRedirectQueryParameter := "redirect_url";
     m_TokenValidator := Sample.validator;
     m_TokenValidatorOptions := 1%positive;
     AllowedTokenTypes := []; AllowedTokenSources := [];
     PassClaims := false; StripToken := false;
     ForbiddenURL := ""; ValidateMethodPath := false;
     ValidateAccessListPathClaim := false;
     PassClaimsWithHeaders := false |}.

(** The world in which a request carrying [token] arrives while the
    registry holds no policy at all. *)
Definition stranded (token : string) : World (E := Sample.deployment) :=
  @Build_World Sample.deployment Sample.blank (Sample.request token)
    (∅ : gmap string AuthProvider)
    {[ 1%positive := {| Metadata := ∅ |} ]} [].

(** A signing routine that differs from [Sample.sign] on the empty key. *)
Definition careless (c : UserClaims) (method : string) (key : list Byte.byte) :
    string * option error :=
  match key with
  | [] => ("unsigned", None)
  | _ => Sample.sign c method key
  end.

End Cases.

(** * Properties *)

(** ** Strings and headers *)

Lemma unsupported_method_text (method : string) :
  Error (WithArgs ErrUnsupportedSigningMethod method)
  = "grantor does not support " +:+ method +:+ " token signing method".
Proof. reflexivity. Qed.

Lemma expireAll_values (h : http.Header) (ks : list string) :
  http.Header_Values (expireAll h ks) "Set-Cookie"
  = http.Header_Values h "Set-Cookie" ++ map expired ks.
Proof.
  revert h. induction ks as [|k ks IH]; intros h; simpl.
  - by rewrite app_nil_r.
  - rewrite IH. unfold http.Header_Values, http.Header_Add.
    rewrite lookup_insert_eq. simpl. by rewrite <- app_assoc.
Qed.

Lemma expireAll_other (h : http.Header) (ks : list string) (key : string) :
  key ≠ "Set-Cookie" -> expireAll h ks !! key = h !! key.
Proof.
  intros Hkey. revert h. induction ks as [|k ks IH]; intros h; simpl; [done|].
  rewrite IH. unfold http.Header_Add. by rewrite lookup_insert_ne.
Qed.

(** ** The phases of a request *)

Section EngineProperties.

Context {E : Collaborators}.

Implicit Types (m : AuthProvider) (st : World) (v : Verdict) (valid : bool).

(** Unfolds the monad's operations. *)
Ltac run :=
  unfold mbind, mret, M_bind, M_ret,
    w_Header_Set, w_Header_Add, w_WriteHeader, w_Write,
    r_get, r_Header_Set, with_resp, with_req, with_heap; simpl.

Lemma expireCookies_run m st :
  expireCookies m st =
  (tt, with_resp (λ w,
         {| http.rw_header :=
              expireAll (http.rw_header w) (rangeOrder (Cookies (m_TokenValidator m)));
            http.rw_codes := http.rw_codes w;
            http.rw_body := http.rw_body w |}) st).
Proof.
  unfold expireCookies.
  generalize (rangeOrder (Cookies (m_TokenValidator m))) as ks.
  intros ks. revert st. induction ks as [|k ks IH]; intros st.
  - destruct st as [[] ? ? ? ?]. reflexivity.
  - simpl. run. rewrite IH. run. reflexivity.
Qed.

(** The lazy bind leaves writer, request and heap alone; it reaches the
    pool exactly when the receiver is not provisioned. *)
Lemma lazyBind_run m st :
  lazyBind m st =
  if Provisioned m then (inr m, st)
  else ((Provision (pool st) (Name m)).2,
        {| resp := resp st; req := req st;
           pool := (Provision (pool st) (Name m)).1;
           heap := heap st; calls := calls st ++ [CallProvision (Name m)] |}).
Proof.
  unfold lazyBind, ProviderPool_Provision.
  destruct (Provisioned m); simpl; [reflexivity|].
  by destruct (Provision (pool st) (Name m)).
Qed.

Lemma lazyBind_frame m st b st1 :
  lazyBind m st = (b, st1) ->
  resp st1 = resp st ∧ req st1 = req st ∧ heap st1 = heap st.
Proof.
  rewrite lazyBind_run. destruct (Provisioned m); intros [= <- <-]; done.
Qed.

(** The validator is called once, on the request as it arrived; writer,
    request and pool are as before. *)
Lemma validate_frame m st v st' :
  validate m st = (v, st') ->
  resp st' = resp st ∧ req st' = req st ∧ pool st' = pool st ∧
  ∃ opts, calls st' = calls st ++ [CallAuthorize (req st) opts (heap st' !!! opts)] ∧
          v = Authorize (m_TokenValidator m) (req st) (heap st' !!! opts).
Proof.
  unfold validate, prepareOptions, tv_Authorize, opts_Clone, opts_Metadata_set, Clone.
  destruct (ValidateMethodPath m); run; intros [= <- <-]; simpl;
    repeat split; eauto.
Qed.

(** Past the entry check, [Authenticate] is the response to the verdict
    obtained for the bound configuration. *)
Lemma Authenticate_bound m st m1 st1 v st2 :
  ProvisionFailed m = false ->
  lazyBind m st = (inr m1, st1) ->
  validate m1 st1 = (v, st2) ->
  Authenticate m st = respond m1 v st2.
Proof.
  intros Hpf Hbind Hval. unfold Authenticate. rewrite Hpf.
  unfold mbind, M_bind at 1. rewrite Hbind.
  unfold M_bind. by rewrite Hval.
Qed.

Lemma Authenticate_unbound m st err st1 :
  ProvisionFailed m = false ->
  lazyBind m st = (inl err, st1) ->
  Authenticate m st =
  ((caddyauth.zero, false, Some err),
   with_resp (λ w, {| http.rw_header := http.rw_header w;
                      http.rw_codes := http.rw_codes w ++ [500%Z];
                      http.rw_body := http.rw_body w ++ ["Internal Server Error"] |}) st1).
Proof.
  intros Hpf Hbind. unfold Authenticate. rewrite Hpf.
  unfold mbind, M_bind at 1. rewrite Hbind. reflexivity.
Qed.

(** The three unauthorized branches share their effect. *)
Lemma unauthorized_run m (text : string) (out : Result) st :
  ∃ st',
    (expireCookies m;;
     addRedirectLocationHeader (AuthURLPath m) (AuthRedirectQueryDisabled m)
       (AuthRedirectQueryParameter m);;
     w_WriteHeader 302;;
     w_Write text;;
     mret out) st = (out, st') ∧
    unauthorized m (req st) text (resp st) (resp st') ∧
    req st' = req st ∧ pool st' = pool st ∧ heap st' = heap st ∧
    calls st' = calls st.
Proof.
  unfold mbind, M_bind at 1. rewrite expireCookies_run.
  unfold addRedirectLocationHeader. run.
  pose proof (rangeOrder_perm (Cookies (m_TokenValidator m))) as Hperm.
  destruct (redirectTarget (req st) (AuthURLPath m) (AuthRedirectQueryDisabled m)
              (AuthRedirectQueryParameter m)) as [target|] eqn:Htarget;
    run; eexists; (split; [reflexivity|]); simpl;
    unfold unauthorized; simpl; rewrite Htarget.
  - repeat split; try done.
    + exists (rangeOrder (Cookies (m_TokenValidator m))). split; [done|].
      unfold http.Header_Set, http.Header_Values.
      rewrite lookup_insert_ne by done. apply expireAll_values.
    + unfold http.Header_Set. by rewrite lookup_insert_eq.
    + intros key H1 H2. unfold http.Header_Set.
      rewrite lookup_insert_ne by done. by apply expireAll_other.
  - repeat split; try done.
    + exists (rangeOrder (Cookies (m_TokenValidator m))). split; [done|].
      apply expireAll_values.
    + by apply expireAll_other.
    + intros key H1 H2. by apply expireAll_other.
Qed.

(** Writer and request when the response is chosen are those of the
    call's start. *)
Lemma bound_frame m st m1 st1 v st2 :
  lazyBind m st = (inr m1, st1) ->
  validate m1 st1 = (v, st2) ->
  resp st2 = resp st ∧ req st2 = req st.
Proof.
  intros Hbind Hval.
  apply lazyBind_frame in Hbind as (Hw1 & Hr1 & _).
  apply validate_frame in Hval as (Hw2 & Hr2 & _).
  split; congruence.
Qed.

(** ** The claims about [Authenticate] *)

(** C5. When the receiver's [ProvisionFailed] flag is set, [Authenticate]
    writes status 500 and the body [Internal Server Error] and returns the
    provisioning error; nothing else happens: no header is touched, the
    request, the pool and the heap are as before, and no collaborator is
    called, neither the pool nor the validator.  No other field of the
    receiver is consulted. *)
Theorem Authenticate_provision_failed m st :
  ProvisionFailed m = true ->
  (Authenticate m st).1 = (caddyauth.zero, false, Some ErrProvisonFailed) ∧
  http.rw_codes (resp (Authenticate m st).2) = http.rw_codes (resp st) ++ [500%Z] ∧
  http.rw_body (resp (Authenticate m st).2)
    = http.rw_body (resp st) ++ ["Internal Server Error"] ∧
  http.rw_header (resp (Authenticate m st).2) = http.rw_header (resp st) ∧
  req (Authenticate m st).2 = req st ∧
  pool (Authenticate m st).2 = pool st ∧
  heap (Authenticate m st).2 = heap st ∧
  calls (Authenticate m st).2 = calls st.
Proof.
  intros Hpf. unfold Authenticate. rewrite Hpf. run. done.
Qed.

(** C1. When the validator returns an error whose text contains the
    forbidden-role marker, [Authenticate] returns that error with the zero
    user and [false], and writes the body [Forbidden]; with a non-empty
    [ForbiddenURL] it sets the [Location] header to that URL and writes
    status 303, with an empty one it writes status 403 and leaves the
    headers alone. *)
Theorem Authenticate_forbidden m st m1 st1 c valid e st2 :
  ProvisionFailed m = false ->
  lazyBind m st = (inr m1, st1) ->
  validate m1 st1 = ((c, valid, Some e), st2) ->
  strings.Contains (Error e) forbiddenMarker = true ->
  (Authenticate m st).1 = (caddyauth.zero, false, Some e) ∧
  http.rw_body (resp (Authenticate m st).2) = http.rw_body (resp st) ++ ["Forbidden"] ∧
  (ForbiddenURL m1 ≠ "" ->
     http.rw_codes (resp (Authenticate m st).2) = http.rw_codes (resp st) ++ [303%Z] ∧
     http.rw_header (resp (Authenticate m st).2) !! "Location" = Some [ForbiddenURL m1] ∧
     ∀ key, key ≠ "Location" ->
       http.rw_header (resp (Authenticate m st).2) !! key = http.rw_header (resp st) !! key) ∧
  (ForbiddenURL m1 = "" ->
     http.rw_codes (resp (Authenticate m st).2) = http.rw_codes (resp st) ++ [403%Z] ∧
     http.rw_header (resp (Authenticate m st).2) = http.rw_header (resp st)).
Proof.
  intros Hpf Hbind Hval Hmark.
  rewrite (Authenticate_bound _ _ _ _ _ _ Hpf Hbind Hval).
  destruct (bound_frame _ _ _ _ _ _ Hbind Hval) as [<- _].
  unfold respond. rewrite Hmark.
  destruct (bool_decide_reflect (ForbiddenURL m1 = "")) as [Hurl|Hurl]; run.
  - repeat split; try done.
  - repeat split; try done.
    + unfold http.Header_Set. by rewrite lookup_insert_eq.
    + intros key Hkey. unfold http.Header_Set. by rewrite lookup_insert_ne.
Qed.



(** C6. On success the identity returned has the claim set's email as
    its identifier and, under the metadata key [roles], the role strings
    joined by single spaces; for the email [a@b.com] and the roles [admin],
    [user] these are [a@b.com] and [admin user]. *)
Theorem Authenticate_identity m st m1 st1 c st2 :
  ProvisionFailed m = false ->
  lazyBind m st = (inr m1, st1) ->
  validate m1 st1 = ((Some c, true, None), st2) ->
  ∃ user,
    (Authenticate m st).1 = (user, true, None) ∧
    caddyauth.ID user = Email c ∧
    caddyauth.Metadata user !! "roles" = Some (strings.Join (Roles c) " ") ∧
    (Email c = "a@b.com" -> Roles c = ["admin"; "user"] ->
       caddyauth.ID user = "a@b.com" ∧
       caddyauth.Metadata user !! "roles" = Some "admin user").
Proof.
  intros Hpf Hbind Hval.
  rewrite (Authenticate_bound _ _ _ _ _ _ Hpf Hbind Hval).
  unfold respond, identify. simpl.
  destruct (bool_decide (claims_Name c = "")), (bool_decide (Email c = "")),
    (PassClaimsWithHeaders m1), (bool_decide (0 < length (Roles c))%nat),
    (bool_decide (Subject c = "")); run;
    (eexists; split; [reflexivity|]; simpl;
     rewrite ?lookup_insert_ne by done; rewrite lookup_singleton_eq;
     split; [done|]; split; [done|]; intros He Hr; rewrite He, Hr; done).
Qed.

(** C7, as the code has it.  On success nothing is written to the
    response.  With claim-header propagation enabled, each of the four
    token headers of the forwarded request is set from its claim exactly
    when that claim is present (a non-empty name, email or subject, a
    non-empty role list) and is otherwise left as it arrived; every other
    header, the method and the path are left as they arrived.  With
    propagation disabled the request is left as it arrived. *)
Theorem Authenticate_claim_headers m st m1 st1 c st2 :
  ProvisionFailed m = false ->
  lazyBind m st = (inr m1, st1) ->
  validate m1 st1 = ((Some c, true, None), st2) ->
  let h := http.req_header (req st) in
  let h' := http.req_header (req (Authenticate m st).2) in
  resp (Authenticate m st).2 = resp st ∧
  (PassClaimsWithHeaders m1 = false -> req (Authenticate m st).2 = req st) ∧
  (PassClaimsWithHeaders m1 = true ->
     (claims_Name c ≠ "" -> h' !! "X-Token-User-Name" = Some [claims_Name c]) ∧
     (claims_Name c = "" -> h' !! "X-Token-User-Name" = h !! "X-Token-User-Name") ∧
     (Email c ≠ "" -> h' !! "X-Token-User-Email" = Some [Email c]) ∧
     (Email c = "" -> h' !! "X-Token-User-Email" = h !! "X-Token-User-Email") ∧
     (Roles c ≠ [] ->
        h' !! "X-Token-User-Roles" = Some [strings.Join (Roles c) " "]) ∧
     (Roles c = [] -> h' !! "X-Token-User-Roles" = h !! "X-Token-User-Roles") ∧
     (Subject c ≠ "" -> h' !! "X-Token-Subject" = Some [Subject c]) ∧
     (Subject c = "" -> h' !! "X-Token-Subject" = h !! "X-Token-Subject") ∧
     (∀ key, key ∉ tokenHeaders -> h' !! key = h !! key) ∧
     http.Method (req (Authenticate m st).2) = http.Method (req st) ∧
     http.URL_Path (req (Authenticate m st).2) = http.URL_Path (req st)).
Proof.
  intros Hpf Hbind Hval.
  rewrite (Authenticate_bound _ _ _ _ _ _ Hpf Hbind Hval).
  destruct (bound_frame _ _ _ _ _ _ Hbind Hval) as [<- <-].
  assert (Hroles : bool_decide (0 < length (Roles c))%nat = true ↔ Roles c ≠ []).
  { destruct (Roles c); cbn; split; intros; done. }
  unfold respond, identify, tokenHeaders. simpl.
  destruct (bool_decide_reflect (claims_Name c = "")),
    (bool_decide_reflect (Email c = "")),
    (PassClaimsWithHeaders m1),
    (bool_decide (0 < length (Roles c))%nat) eqn:Hlen,
    (bool_decide_reflect (Subject c = ""));
    run; unfold http.Header_Set;
    (split; [by destruct st2|]); (split; [intros; by destruct st2 as [? [] ? ? ?]|]);
    intros Hpass; try discriminate Hpass;
    repeat split; intros;
    repeat match goal with
           | H : _ ∉ _ :: _ |- _ => apply not_elem_of_cons in H as [? ?]
           | H : Roles c ≠ [] |- _ => apply Hroles in H; discriminate H
           | H : Roles c = [] |- _ =>
               exfalso; by apply (proj1 Hroles eq_refl)
           end;
    rewrite ?lookup_insert_eq; rewrite ?lookup_insert_ne by done;
    rewrite ?lookup_insert_eq; rewrite ?lookup_insert_ne by done;
    try done.
Qed.

(** ** Frames and the remaining claims *)

(** The response to a verdict touches neither pool, heap nor call log. *)
Lemma respond_frame m v st :
  pool (respond m v st).2 = pool st ∧
  heap (respond m v st).2 = heap st ∧
  calls (respond m v st).2 = calls st.
Proof.
  destruct v as [[c valid] [e|]]; unfold respond.
  - destruct (strings.Contains (Error e) forbiddenMarker).
    + destruct (bool_decide (ForbiddenURL m = "")); run; done.
    + destruct (unauthorized_run m "Unauthorized" (caddyauth.zero, false, Some e) st)
        as (st' & -> & _ & _ & ? & ? & ?). done.
  - destruct valid; simpl.
    + destruct c as [c|].
      * unfold identify.
        destruct (bool_decide (claims_Name c = "")), (bool_decide (Email c = "")),
          (PassClaimsWithHeaders m), (bool_decide (0 < length (Roles c))%nat),
          (bool_decide (Subject c = "")); run; done.
      * destruct (unauthorized_run m "User Unauthorized" (caddyauth.zero, false, None) st)
          as (st' & -> & _ & _ & ? & ? & ?). done.
    + destruct (unauthorized_run m "Unauthorized User" (caddyauth.zero, false, None) st)
        as (st' & -> & _ & _ & ? & ? & ?). done.
Qed.

(** What the response to a verdict writes: one status and one body, or,
    on success, neither. *)
Lemma respond_writes m v st :
  let w := resp st in
  let w' := resp (respond m v st).2 in
  match v with
  | (_, _, Some e) =>
      if strings.Contains (Error e) forbiddenMarker then
        http.rw_body w' = http.rw_body w ++ ["Forbidden"] ∧
        http.rw_codes w' = http.rw_codes w ++
          [if bool_decide (ForbiddenURL m = "") then 403%Z else 303%Z]
      else
        http.rw_body w' = http.rw_body w ++ ["Unauthorized"] ∧
        http.rw_codes w' = http.rw_codes w ++ [302%Z]
  | (_, false, None) =>
      http.rw_body w' = http.rw_body w ++ ["Unauthorized User"] ∧
      http.rw_codes w' = http.rw_codes w ++ [302%Z]
  | (None, true, None) =>
      http.rw_body w' = http.rw_body w ++ ["User Unauthorized"] ∧
      http.rw_codes w' = http.rw_codes w ++ [302%Z]
  | (Some _, true, None) =>
      http.rw_body w' = http.rw_body w ∧ http.rw_codes w' = http.rw_codes w
  end.
Proof.
  assert (Hun : ∀ text (out : Result),
    let st' := (expireCookies m;;
                addRedirectLocationHeader (AuthURLPath m) (AuthRedirectQueryDisabled m)
                  (AuthRedirectQueryParameter m);;
                w_WriteHeader 302;; w_Write text;; mret out) st in
    http.rw_body (resp st'.2) = http.rw_body (resp st) ++ [text] ∧
    http.rw_codes (resp st'.2) = http.rw_codes (resp st) ++ [302%Z]).
  { intros text out.
    destruct (unauthorized_run m text out st) as (st' & -> & (? & ? & _) & _).
    done. }
  destruct v as [[[c|] []] [e|]]; unfold respond; simpl;
    try (destruct (strings.Contains (Error e) forbiddenMarker);
         [destruct (bool_decide (ForbiddenURL m = "")); run; done|]);
    try apply Hun.
  unfold identify.
  destruct (bool_decide (claims_Name c = "")), (bool_decide (Email c = "")),
    (PassClaimsWithHeaders m), (bool_decide (0 < length (Roles c))%nat),
    (bool_decide (Subject c = "")); run; done.
Qed.

(** With method and path validation on, the validator receives a fresh
    copy of the configured options, extended by the request's method and
    path. *)
Lemma validate_clone m st :
  ValidateMethodPath m = true ->
  let opts := fresh (dom (heap st)) in
  let o := Metadata_set "path" (http.URL_Path (req st))
             (Metadata_set "method" (http.Method (req st))
                (heap st !!! m_TokenValidatorOptions m)) in
  validate m st =
  (Authorize (m_TokenValidator m) (req st) o,
   {| resp := resp st; req := req st; pool := pool st;
      heap := <[opts := o]> (heap st);
      calls := calls st ++ [CallAuthorize (req st) opts o] |}).
Proof.
  intros Hvmp.
  unfold validate, prepareOptions, tv_Authorize, opts_Clone, opts_Metadata_set, Clone.
  rewrite Hvmp. run.
  rewrite !alter_insert_eq, lookup_total_insert_eq. reflexivity.
Qed.

(** Validation changes no object the heap already holds. *)
Lemma validate_heap m st (q : loc) (o : TokenValidatorOptions) :
  heap st !! q = Some o -> heap (validate m st).2 !! q = Some o.
Proof.
  intros Hq. destruct (ValidateMethodPath m) eqn:Hvmp.
  - rewrite validate_clone by done. simpl.
    rewrite lookup_insert_ne; [done|].
    intros Heq. pose proof (is_fresh (dom (heap st))) as Hfresh.
    rewrite Heq in Hfresh. apply not_elem_of_dom in Hfresh. congruence.
  - unfold validate, prepareOptions, tv_Authorize. rewrite Hvmp. run. done.
Qed.

(** The three ways through [Authenticate]. *)
Lemma Authenticate_cases m st :
  (ProvisionFailed m = true ∧
   Authenticate m st =
   ((caddyauth.zero, false, Some ErrProvisonFailed),
    with_resp (λ w, {| http.rw_header := http.rw_header w;
                       http.rw_codes := http.rw_codes w ++ [500%Z];
                       http.rw_body := http.rw_body w ++ ["Internal Server Error"] |}) st)) ∨
  (ProvisionFailed m = false ∧ ∃ err st1,
     lazyBind m st = (inl err, st1) ∧
     Authenticate m st =
     ((caddyauth.zero, false, Some err),
      with_resp (λ w, {| http.rw_header := http.rw_header w;
                         http.rw_codes := http.rw_codes w ++ [500%Z];
                         http.rw_body := http.rw_body w ++ ["Internal Server Error"] |}) st1)) ∨
  (ProvisionFailed m = false ∧ ∃ m1 st1 v st2,
     lazyBind m st = (inr m1, st1) ∧
     validate m1 st1 = (v, st2) ∧
     Authenticate m st = respond m1 v st2).
Proof.
  destruct (ProvisionFailed m) eqn:Hpf.
  - left. split; [done|]. unfold Authenticate. rewrite Hpf. reflexivity.
  - right. destruct (lazyBind m st) as [[err|m1] st1] eqn:Hbind.
    + left. split; [done|]. exists err, st1. split; [done|].
      exact (Authenticate_unbound _ _ _ _ Hpf Hbind).
    + right. split; [done|].
      destruct (validate m1 st1) as [v st2] eqn:Hval.
      exists m1, st1, v, st2. repeat split; try done.
      exact (Authenticate_bound _ _ _ _ _ _ Hpf Hbind Hval).
Qed.

(** C8. With method and path validation enabled, the validator is handed
    a clone of the configured options: an object that did not exist before
    the call, whose metadata holds the request's method under [method] and
    its path under [path] and agrees with the configured options' metadata
    on every other key.  Every options object that existed before the
    call, the configured one among them, is unchanged after it. *)
Theorem Authenticate_clones_options m st m1 st1 :
  ProvisionFailed m = false ->
  lazyBind m st = (inr m1, st1) ->
  ValidateMethodPath m1 = true ->
  ∃ opts o,
    calls (Authenticate m st).2 = calls st1 ++ [CallAuthorize (req st) opts o] ∧
    (validate m1 st1).1 = Authorize (m_TokenValidator m1) (req st) o ∧
    heap st !! opts = None ∧
    heap (Authenticate m st).2 !! opts = Some o ∧
    Metadata o !! "method" = Some (http.Method (req st)) ∧
    Metadata o !! "path" = Some (http.URL_Path (req st)) ∧
    (∀ key, key ≠ "method" -> key ≠ "path" ->
       Metadata o !! key = Metadata (heap st !!! m_TokenValidatorOptions m1) !! key) ∧
    (∀ q o', heap st !! q = Some o' -> heap (Authenticate m st).2 !! q = Some o').
Proof.
  intros Hpf Hbind Hvmp.
  destruct (lazyBind_frame _ _ _ _ Hbind) as (_ & Hreq & Hheap).
  pose proof (validate_clone m1 st1 Hvmp) as Hval. simpl in Hval.
  rewrite (Authenticate_bound _ _ _ _ _ _ Hpf Hbind Hval).
  destruct (respond_frame m1 (Authorize (m_TokenValidator m1) (req st1)
    (Metadata_set "path" (http.URL_Path (req st1))
       (Metadata_set "method" (http.Method (req st1))
          (heap st1 !!! m_TokenValidatorOptions m1))))
    {| resp := resp st1; req := req st1; pool := pool st1;
       heap := <[fresh (dom (heap st1)) :=
                   Metadata_set "path" (http.URL_Path (req st1))
                     (Metadata_set "method" (http.Method (req st1))
                        (heap st1 !!! m_TokenValidatorOptions m1))]> (heap st1);
       calls := calls st1 ++
         [CallAuthorize (req st1) (fresh (dom (heap st1)))
            (Metadata_set "path" (http.URL_Path (req st1))
               (Metadata_set "method" (http.Method (req st1))
                  (heap st1 !!! m_TokenValidatorOptions m1)))] |})
    as (_ & -> & ->). simpl.
  rewrite Hval. simpl. rewrite Hreq, Hheap.
  pose proof (is_fresh (dom (heap st))) as Hfresh.
  apply not_elem_of_dom in Hfresh.
  eexists _, _. split; [reflexivity|]. split; [reflexivity|].
  split; [done|]. split; [by rewrite lookup_insert_eq|].
  unfold Metadata_set; simpl.
  split; [by rewrite lookup_insert_ne, lookup_insert_eq|].
  split; [by rewrite lookup_insert_eq|].
  split.
  - intros key H1 H2. by rewrite !lookup_insert_ne.
  - intros q o' Hq. rewrite lookup_insert_ne; [done|]. congruence.
Qed.

(** A request reaches at most one outcome. *)
Lemma reaches_unique m st (o o' : Outcome) :
  reaches m st o -> reaches m st o' -> o = o'.
Proof.
  intros H H'. destruct H; destruct H'; try reflexivity; congruence.
Qed.

(** A request reaches some outcome. *)
Lemma reaches_total m st : ∃ o, reaches m st o.
Proof.
  destruct (ProvisionFailed m) eqn:Hpf.
  { exists ProvisioningFailure. by apply reaches_failed. }
  destruct (lazyBind m st) as [[err|m1] st1] eqn:Hbind.
  { exists ProvisioningFailure. by eapply reaches_unbound. }
  destruct (validate m1 st1) as [[[c valid] [e|]] st2] eqn:Hval.
  - destruct (strings.Contains (Error e) forbiddenMarker) eqn:Hmark.
    + exists Forbidden. by eapply reaches_forbidden.
    + exists ValidationError. by eapply reaches_error.
  - destruct valid.
    + destruct c as [c|].
      * exists Success. by eapply reaches_success.
      * exists NilClaims. by eapply reaches_nil.
    + exists InvalidUser. by eapply reaches_invalid.
Qed.

(** C9. Every request reaches exactly one of the six outcomes.  Whatever
    that outcome is, [Authenticate] writes its body and one of its status
    codes, once each, or, when the outcome is success, neither. *)
Theorem Authenticate_one_outcome m st :
  (∃ o, reaches m st o ∧ ∀ o', reaches m st o' -> o' = o) ∧
  ∀ o, reaches m st o ->
    let w := resp st in
    let w' := resp (Authenticate m st).2 in
    match bodyOf o with
    | None => http.rw_codes w' = http.rw_codes w ∧ http.rw_body w' = http.rw_body w
    | Some text =>
        http.rw_body w' = http.rw_body w ++ [text] ∧
        ∃ code, code ∈ statusesOf o ∧ http.rw_codes w' = http.rw_codes w ++ [code]
    end.
Proof.
  split.
  { destruct (reaches_total m st) as [o Ho]. exists o. split; [done|].
    intros o' Ho'. by apply (reaches_unique m st). }
  intros o Ho.
  destruct Ho as [Hpf|err st1 Hpf Hbind|m1 st1 c valid e st2 Hpf Hbind Hval Hmark
                 |m1 st1 c valid e st2 Hpf Hbind Hval Hmark
                 |m1 st1 c st2 Hpf Hbind Hval|m1 st1 st2 Hpf Hbind Hval
                 |m1 st1 c st2 Hpf Hbind Hval]; simpl.
  - unfold Authenticate. rewrite Hpf. run. split; [done|].
    exists 500%Z. split; [set_solver|done].
  - rewrite (Authenticate_unbound _ _ _ _ Hpf Hbind).
    destruct (lazyBind_frame _ _ _ _ Hbind) as (<- & _). run.
    split; [done|]. exists 500%Z. split; [set_solver|done].
  - rewrite (Authenticate_bound _ _ _ _ _ _ Hpf Hbind Hval).
    destruct (bound_frame _ _ _ _ _ _ Hbind Hval) as [<- _].
    pose proof (respond_writes m1 (c, valid, Some e) st2) as Hw.
    destruct c, valid; simpl in Hw |- *; rewrite Hmark in Hw |- *;
      destruct Hw as [Hb Hc].
    all: split; [done|]; eexists; (split; [|exact Hc]).
    all: destruct (bool_decide (ForbiddenURL m1 = "")); set_solver.
  - rewrite (Authenticate_bound _ _ _ _ _ _ Hpf Hbind Hval).
    destruct (bound_frame _ _ _ _ _ _ Hbind Hval) as [<- _].
    pose proof (respond_writes m1 (c, valid, Some e) st2) as Hw.
    destruct c, valid; simpl in Hw |- *; rewrite Hmark in Hw |- *;
      destruct Hw as [Hb Hc].
    all: split; [done|]; exists 302%Z; split; [set_solver|done].
  - rewrite (Authenticate_bound _ _ _ _ _ _ Hpf Hbind Hval).
    destruct (bound_frame _ _ _ _ _ _ Hbind Hval) as [<- _].
    pose proof (respond_writes m1 (c, false, None) st2) as Hw.
    destruct c; simpl in Hw |- *; destruct Hw as [Hb Hc];
      (split; [done|]; exists 302%Z; split; [set_solver|done]).
  - rewrite (Authenticate_bound _ _ _ _ _ _ Hpf Hbind Hval).
    destruct (bound_frame _ _ _ _ _ _ Hbind Hval) as [<- _].
    pose proof (respond_writes m1 (None, true, None) st2) as Hw.
    simpl in Hw |- *. destruct Hw as [Hb Hc].
    split; [done|]. exists 302%Z. split; [set_solver|done].
  - rewrite (Authenticate_bound _ _ _ _ _ _ Hpf Hbind Hval).
    destruct (bound_frame _ _ _ _ _ _ Hbind Hval) as [<- _].
    pose proof (respond_writes m1 (Some c, true, None) st2) as Hw.
    simpl in Hw |- *. destruct Hw as [Hb Hc]. done.
Qed.

(** C10, as the code has it.  [Authenticate] assigns to nothing but its
    own copy of the receiver.  When the receiver is marked failed or
    provisioned the pool is not called and is left as it was.  Otherwise
    the pool is asked for the receiver's name, once and before any other
    call, on every such request, and the pool after the request is the
    one that call left.  In either case no options object that existed
    before the request is changed. *)
Theorem Authenticate_registry_effect m st :
  pool (Authenticate m st).2 =
    (if ProvisionFailed m || Provisioned m then pool st
     else (Provision (pool st) (Name m)).1) ∧
  (∃ rest,
     calls (Authenticate m st).2 =
       calls st ++
       (if ProvisionFailed m || Provisioned m then []
        else [CallProvision (Name m)]) ++ rest ∧
     ∀ name, CallProvision name ∉ rest) ∧
  (∀ q o, heap st !! q = Some o -> heap (Authenticate m st).2 !! q = Some o).
Proof.
  destruct (Authenticate_cases m st)
    as [[Hpf ->]|[(Hpf & err & st1 & Hbind & ->)
                 |(Hpf & m1 & st1 & v & st2 & Hbind & Hval & ->)]];
    rewrite Hpf; simpl.
  - split; [done|]. split; [|done].
    exists []. rewrite app_nil_r. split; [done|]. set_solver.
  - rewrite lazyBind_run in Hbind.
    destruct (Provisioned m); injection Hbind as Hres <-; [discriminate Hres|].
    simpl. split; [done|]. split; [|done].
    exists []. split; [done|]. set_solver.
  - destruct (respond_frame m1 v st2) as (-> & -> & ->).
    assert (Hst2 : st2 = (validate m1 st1).2) by by rewrite Hval.
    destruct (validate_frame _ _ _ _ Hval) as (_ & _ & -> & opts & -> & _).
    rewrite lazyBind_run in Hbind.
    destruct (Provisioned m); injection Hbind as Hres <-; simpl.
    + split; [done|]. split.
      * eexists [_]. split; [done|].
        intros name Hin%list_elem_of_singleton. discriminate Hin.
      * intros q o Hq. rewrite Hst2. by apply validate_heap.
    + split; [done|]. split.
      * eexists [_]. rewrite <- app_assoc. split; [done|].
        intros name Hin%list_elem_of_singleton. discriminate Hin.
      * intros q o Hq. rewrite Hst2. by apply validate_heap.
Qed.

End EngineProperties.

(** ** The claim about the grantor *)

Section GrantorProperties.

Variable methods : gset string.
Variable GetToken :
  UserClaims -> string -> list Byte.byte -> string * option error.

(** C4. [GrantToken] fails with the unsupported-method error, which names
    the method, when the method is not registered, whatever the claims and
    the secret; else with the nil-claims error when the claims are nil,
    whatever the secret; else with the empty-secret error when the secret
    is empty; and else returns what the claim set's own signing routine
    returns for the method and the bytes of the secret. *)
Theorem GrantToken_precedence (g : TokenGrantor) (method : string)
    (claims : option UserClaims) :
  (method ∉ methods ->
     GrantToken methods GetToken g method claims
     = ("", Some (WithArgs ErrUnsupportedSigningMethod method)) ∧
     Error (WithArgs ErrUnsupportedSigningMethod method)
     = "grantor does not support " +:+ method +:+ " token signing method") ∧
  (method ∈ methods -> claims = None ->
     GrantToken methods GetToken g method claims = ("", Some ErrNoClaims)) ∧
  (method ∈ methods -> claims ≠ None -> TokenSecret g = "" ->
     GrantToken methods GetToken g method claims = ("", Some ErrEmptySecret)) ∧
  (∀ c, method ∈ methods -> claims = Some c -> TokenSecret g ≠ "" ->
     GrantToken methods GetToken g method claims
     = GetToken c method (list_byte_of_string (TokenSecret g))).
Proof.
  unfold GrantToken.
  destruct (bool_decide_reflect (method ∈ methods)) as [Hin|Hout]; simpl.
  - split; [done|]. split; [by intros _ ->|].
    split.
    + intros _ Hc Hs. destruct claims; [|done].
      by rewrite bool_decide_eq_true_2.
    + intros c _ -> Hs. by rewrite bool_decide_eq_false_2.
  - split; [intros _; split; [done|apply unsupported_method_text]|].
    repeat split; intros; done.
Qed.

End GrantorProperties.

(** ** The theorems at work on the sample deployment *)

Lemma Authenticate_provision_failed_witness :
  ProvisionFailed Sample.broken = true ∧
  (Authenticate (E := Sample.deployment) Sample.broken (Sample.arrival "alice")).1
    = (caddyauth.zero, false, Some ErrProvisonFailed) ∧
  http.rw_codes
    (resp (Authenticate (E := Sample.deployment) Sample.broken (Sample.arrival "alice")).2)
    = [500%Z] ∧
  calls (Authenticate (E := Sample.deployment) Sample.broken (Sample.arrival "alice")).2
    = [].
Proof.
  split; [reflexivity|].
  destruct (Authenticate_provision_failed (E := Sample.deployment)
              Sample.broken (Sample.arrival "alice") eq_refl)
    as (Hout & Hcodes & _ & _ & _ & _ & _ & Hcalls).
  split; [exact Hout|]. split; [exact Hcodes|exact Hcalls].
Defined.

Lemma Authenticate_forbidden_witness :
  strings.Contains "user role is valid, but not allowed by access list"
    forbiddenMarker = true ∧
  http.rw_codes
    (resp (Authenticate (E := Sample.deployment) Sample.portal (Sample.arrival "intern")).2)
    = [303%Z] ∧
  http.rw_header
    (resp (Authenticate (E := Sample.deployment) Sample.portal (Sample.arrival "intern")).2)
    !! "Location" = Some ["/forbidden"] ∧
  http.rw_body
    (resp (Authenticate (E := Sample.deployment) Sample.portal (Sample.arrival "intern")).2)
    = ["Forbidden"].
Proof.
  split; [reflexivity|].
  destruct (Authenticate_forbidden (E := Sample.deployment)
              Sample.portal (Sample.arrival "intern")
              Sample.portal (Sample.arrival "intern") None false
              (errorString "user role is valid, but not allowed by access list")
              (validate Sample.portal (Sample.arrival "intern")).2
              eq_refl eq_refl eq_refl eq_refl)
    as (_ & Hbody & Hurl & _).
  destruct (Hurl ltac:(discriminate)) as (Hcodes & Hloc & _).
  split; [exact Hcodes|]. split; [exact Hloc|exact Hbody].
Defined.



Lemma Authenticate_identity_witness :
  ∃ user,
    (Authenticate (E := Sample.deployment) Sample.unbound (Sample.arrival "alice")).1
      = (user, true, None) ∧
    caddyauth.ID user = "a@b.com" ∧
    caddyauth.Metadata user !! "roles" = Some "admin user".
Proof.
  destruct (Authenticate_identity (E := Sample.deployment)
              Sample.unbound (Sample.arrival "alice")
              Sample.portal
              (lazyBind Sample.unbound (Sample.arrival "alice")).2
              Sample.alice
              (validate Sample.portal
                 (lazyBind Sample.unbound (Sample.arrival "alice")).2).2
              eq_refl eq_refl eq_refl)
    as (user & Hout & _ & _ & Hsample).
  exists user. split; [exact Hout|]. exact (Hsample eq_refl eq_refl).
Defined.

Lemma Authenticate_claim_headers_witness :
  http.req_header
    (req (Authenticate (E := Sample.deployment) Sample.portal (Sample.arrival "alice")).2)
    !! "X-Token-User-Name" = Some ["Alice"] ∧
  http.req_header
    (req (Authenticate (E := Sample.deployment) Sample.portal (Sample.arrival "alice")).2)
    !! "X-Token-User-Roles" = Some ["admin user"] ∧
  http.req_header
    (req (Authenticate (E := Sample.deployment) Sample.portal (Sample.arrival "bare")).2)
    !! "X-Token-Subject" = None.
Proof.
  destruct (Authenticate_claim_headers (E := Sample.deployment)
              Sample.portal (Sample.arrival "alice")
              Sample.portal (Sample.arrival "alice") Sample.alice
              (validate Sample.portal (Sample.arrival "alice")).2
              eq_refl eq_refl eq_refl)
    as (_ & _ & Hon).
  destruct (Hon eq_refl) as (Hname & _ & _ & _ & Hroles & _).
  split; [exact (Hname ltac:(discriminate))|].
  split; [exact (Hroles ltac:(discriminate))|].
  destruct (Authenticate_claim_headers (E := Sample.deployment)
              Sample.portal (Sample.arrival "bare")
              Sample.portal (Sample.arrival "bare") Sample.bare
              (validate Sample.portal (Sample.arrival "bare")).2
              eq_refl eq_refl eq_refl)
    as (_ & _ & Hon').
  destruct (Hon' eq_refl) as (_ & _ & _ & _ & _ & _ & _ & Hsubject & _).
  exact (Hsubject eq_refl).
Defined.

(** C7 as stated fails: claims without a name pass validation, propagation
    is enabled, and the forwarded request carries no [X-Token-User-Name]
    header. *)
Lemma token_headers_not_always_injected :
  ¬ (∀ (m : AuthProvider) (st : World (E := Sample.deployment)),
       ProvisionFailed m = false ->
       PassClaimsWithHeaders m = true ->
       (Authenticate m st).1.1.2 = true ->
       ∀ key, key ∈ tokenHeaders ->
         is_Some (http.req_header (req (Authenticate m st).2) !! key)).
Proof.
  intros Hclaim.
  destruct (Hclaim Sample.portal (Sample.arrival "bare") eq_refl eq_refl eq_refl
              "X-Token-User-Name" ltac:(left))
    as [value Hvalue].
  discriminate Hvalue.
Qed.

Lemma Authenticate_clones_options_witness :
  ValidateMethodPath Sample.portal = true ∧
  ∃ opts o,
    calls (Authenticate (E := Sample.deployment) Sample.portal (Sample.arrival "alice")).2
      = [CallAuthorize (Sample.request "alice") opts o] ∧
    Metadata o !! "method" = Some "GET" ∧
    Metadata o !! "path" = Some "/app" ∧
    heap (Authenticate (E := Sample.deployment) Sample.portal (Sample.arrival "alice")).2
      !! 1%positive = Some {| Metadata := ∅ |}.
Proof.
  split; [reflexivity|].
  destruct (Authenticate_clones_options (E := Sample.deployment)
              Sample.portal (Sample.arrival "alice")
              Sample.portal (Sample.arrival "alice") eq_refl eq_refl eq_refl)
    as (opts & o & Hcalls & _ & _ & _ & Hmethod & Hpath & _ & Hkeep).
  exists opts, o. split; [exact Hcalls|]. split; [exact Hmethod|].
  split; [exact Hpath|]. exact (Hkeep 1%positive _ eq_refl).
Defined.

Lemma Authenticate_one_outcome_witness :
  reaches (E := Sample.deployment) Sample.portal (Sample.arrival "intern") Forbidden ∧
  http.rw_body
    (resp (Authenticate (E := Sample.deployment) Sample.portal (Sample.arrival "intern")).2)
    = ["Forbidden"].
Proof.
  pose proof (reaches_forbidden (E := Sample.deployment)
                Sample.portal (Sample.arrival "intern")
                Sample.portal (Sample.arrival "intern") None false
                (errorString "user role is valid, but not allowed by access list")
                (validate Sample.portal (Sample.arrival "intern")).2
                eq_refl eq_refl eq_refl eq_refl) as Hreach.
  split; [exact Hreach|].
  destruct (Authenticate_one_outcome (E := Sample.deployment)
              Sample.portal (Sample.arrival "intern")) as [_ Hwrites].
  exact (proj1 (Hwrites Forbidden Hreach)).
Defined.

Lemma Authenticate_registry_effect_witness :
  (∃ rest,
     calls (Authenticate (E := Sample.deployment) Sample.unbound (Sample.arrival "alice")).2
       = CallProvision "portal" :: rest ∧
     ∀ name, CallProvision name ∉ rest) ∧
  heap (Authenticate (E := Sample.deployment) Sample.unbound (Sample.arrival "alice")).2
    !! 1%positive = Some {| Metadata := ∅ |}.
Proof.
  destruct (Authenticate_registry_effect (E := Sample.deployment)
              Sample.unbound (Sample.arrival "alice"))
    as (_ & (rest & Hcalls & Hrest) & Hkeep).
  split.
  - exists rest. split; [exact Hcalls|exact Hrest].
  - exact (Hkeep 1%positive _ eq_refl).
Defined.

(** C10 as stated fails: on the sample registry, whose [Provision] marks
    the entry it provisions, a request handled by an instance that is not
    yet provisioned leaves the registered entry changed. *)
Lemma Authenticate_changes_registry :
  ¬ (∀ (m : AuthProvider) (st : World (E := Sample.deployment)),
       pool (Authenticate m st).2 = pool st).
Proof.
  intros Hclaim.
  pose proof (f_equal (λ p : gmap string AuthProvider, Provisioned <$> p !! "portal")
                (Hclaim Sample.unbound (Sample.arrival "alice"))) as Hentry.
  vm_compute in Hentry. discriminate Hentry.
Qed.

Lemma GrantToken_precedence_witness :
  GrantToken Sample.signingMethods Sample.sign {| TokenSecret := "" |} "none" None
    = ("", Some (errorString "grantor does not support none token signing method")) ∧
  GrantToken Sample.signingMethods Sample.sign {| TokenSecret := "" |} "HS256" None
    = ("", Some ErrNoClaims) ∧
  GrantToken Sample.signingMethods Sample.sign {| TokenSecret := "" |} "HS256"
    (Some Sample.alice) = ("", Some ErrEmptySecret) ∧
  GrantToken Sample.signingMethods Sample.sign {| TokenSecret := "key" |} "HS256"
    (Some Sample.alice) = ("HS256.a@b.com.key", None).
Proof.
  assert (Hin : "HS256" ∈ Sample.signingMethods).
  { apply (bool_decide_unpack _). vm_compute. exact I. }
  assert (Hout : "none" ∉ Sample.signingMethods).
  { apply (bool_decide_unpack _). vm_compute. exact I. }
  split.
  { exact (proj1 (proj1 (GrantToken_precedence Sample.signingMethods Sample.sign
                           {| TokenSecret := "" |} "none" None) Hout)). }
  split.
  { exact (proj1 (proj2 (GrantToken_precedence Sample.signingMethods Sample.sign
                           {| TokenSecret := "" |} "HS256" None)) Hin eq_refl). }
  split.
  { exact (proj1 (proj2 (proj2 (GrantToken_precedence Sample.signingMethods Sample.sign
                                  {| TokenSecret := "" |} "HS256" (Some Sample.alice))))
             Hin ltac:(discriminate) eq_refl). }
  exact (proj2 (proj2 (proj2 (GrantToken_precedence Sample.signingMethods Sample.sign
                                {| TokenSecret := "key" |} "HS256" (Some Sample.alice))))
           Sample.alice Hin eq_refl ltac:(discriminate)).
Defined.

(** * Further properties of the two files *)

(** ** Substrings *)

Lemma HasPrefix_spec (s pre : string) :
  strings.HasPrefix s pre = true ↔ ∃ post, s = pre +:+ post.
Proof.
  revert s. induction pre as [|c pre IH]; intros s.
  - destruct s; simpl; split; eauto.
  - destruct s as [|d s]; simpl.
    + split; [discriminate|]. intros [post Hpost]. discriminate Hpost.
    + rewrite andb_true_iff, bool_decide_eq_true, IH. split.
      * intros [-> [post ->]]. by exists post.
      * intros [post [= -> ->]]. split; [done|]. by exists post.
Qed.

Lemma Contains_spec (s substr : string) :
  strings.Contains s substr = true ↔ ∃ pre post, s = pre +:+ substr +:+ post.
Proof.
  induction s as [|a s IH].
  - change (strings.Contains "" substr)
      with (strings.HasPrefix "" substr || false).
    rewrite orb_false_r, HasPrefix_spec. split.
    + intros [post Hpost]. by exists "", post.
    + intros (pre & post & Hs). exists post. by destruct pre.
  - change (strings.Contains (String a s) substr)
      with (strings.HasPrefix (String a s) substr || strings.Contains s substr).
    rewrite orb_true_iff, HasPrefix_spec, IH. split.
    + intros [[post Hpost]|(pre & post & ->)].
      * by exists "", post.
      * by exists (String a pre), post.
    + intros (pre & post & Hs). destruct pre as [|b pre]; simpl in Hs.
      * left. by exists post.
      * right. injection Hs as -> ->. by exists pre, post.
Qed.


(** ** More about [Authenticate] *)

Section EngineFurther.

Context {E : Collaborators}.

Implicit Types (m : AuthProvider) (st : World) (valid : bool).

Ltac step :=
  unfold mbind, mret, M_bind, M_ret,
    w_Header_Set, w_Header_Add, w_WriteHeader, w_Write,
    r_get, r_Header_Set, with_resp, with_req, with_heap; simpl.

(** What the success branch returns and leaves alone. *)
Lemma identify_facts m (c : UserClaims) st :
  (identify m c st).1.1.2 = true ∧
  (identify m c st).1.2 = None ∧
  resp (identify m c st).2 = resp st ∧
  caddyauth.ID (identify m c st).1.1.1 = Email c ∧
  caddyauth.Metadata (identify m c st).1.1.1 !! "roles"
    = Some (strings.Join (Roles c) " ") ∧
  caddyauth.Metadata (identify m c st).1.1.1 !! "name"
    = (if bool_decide (claims_Name c = "") then None else Some (claims_Name c)) ∧
  caddyauth.Metadata (identify m c st).1.1.1 !! "email"
    = (if bool_decide (Email c = "") then None else Some (Email c)) ∧
  (∀ key, key ≠ "roles" -> key ≠ "name" -> key ≠ "email" ->
     caddyauth.Metadata (identify m c st).1.1.1 !! key = None).
Proof.
  unfold identify, caddyauth.Metadata_set.
  destruct (bool_decide (claims_Name c = "")), (bool_decide (Email c = "")),
    (PassClaimsWithHeaders m), (bool_decide (0 < length (Roles c))%nat),
    (bool_decide (Subject c = "")); step;
    repeat split; try done;
    intros; rewrite ?lookup_insert_eq; rewrite ?lookup_insert_ne by done;
    rewrite ?lookup_insert_eq; rewrite ?lookup_insert_ne by done;
    rewrite ?lookup_singleton_eq; rewrite ?lookup_singleton_ne by done; done.
Qed.

(** Every verdict but a valid user with claims is answered with the zero
    user, [false] and the validator's error, and the request is left alone. *)
Lemma respond_failure m (c : option UserClaims) valid (e : option error) st :
  e ≠ None ∨ valid = false ∨ c = None ->
  (respond m (c, valid, e) st).1 = (caddyauth.zero, false, e) ∧
  req (respond m (c, valid, e) st).2 = req st.
Proof.
  intros Hfail.
  assert (Hun : ∀ text (out : Result),
    let run := (expireCookies m;;
                addRedirectLocationHeader (AuthURLPath m) (AuthRedirectQueryDisabled m)
                  (AuthRedirectQueryParameter m);;
                w_WriteHeader 302;; w_Write text;; mret out) st in
    run.1 = out ∧ req run.2 = req st).
  { intros text out.
    destruct (unauthorized_run m text out st) as (st' & -> & _ & ? & _). done. }
  destruct c as [c|], valid, e as [e|]; unfold respond; simpl;
    try (destruct (strings.Contains (Error e) forbiddenMarker);
         [destruct (bool_decide (ForbiddenURL m = "")); step; done|]);
    try apply Hun.
  destruct Hfail as [?|[?|?]]; done.
Qed.

(** X1. When the receiver is neither failed nor provisioned and the pool
    returns an error for its name, [Authenticate] writes status 500 and the
    body [Internal Server Error] and returns the pool's error.  The pool has
    been called once and is left as that call left it; the validator is not
    called, and headers, request and heap are as before. *)
Theorem Authenticate_bind_failure m st (err : error) :
  ProvisionFailed m = false ->
  Provisioned m = false ->
  (Provision (pool st) (Name m)).2 = inl err ->
  (Authenticate m st).1 = (caddyauth.zero, false, Some err) ∧
  http.rw_codes (resp (Authenticate m st).2) = http.rw_codes (resp st) ++ [500%Z] ∧
  http.rw_body (resp (Authenticate m st).2)
    = http.rw_body (resp st) ++ ["Internal Server Error"] ∧
  http.rw_header (resp (Authenticate m st).2) = http.rw_header (resp st) ∧
  req (Authenticate m st).2 = req st ∧
  heap (Authenticate m st).2 = heap st ∧
  pool (Authenticate m st).2 = (Provision (pool st) (Name m)).1 ∧
  calls (Authenticate m st).2 = calls st ++ [CallProvision (Name m)].
Proof.
  intros Hpf Hprov Herr.
  assert (Hbind : lazyBind m st =
    (inl err, {| resp := resp st; req := req st;
                 pool := (Provision (pool st) (Name m)).1;
                 heap := heap st; calls := calls st ++ [CallProvision (Name m)] |})).
  { rewrite lazyBind_run, Hprov. by rewrite Herr. }
  rewrite (Authenticate_unbound _ _ _ _ Hpf Hbind). step. done.
Qed.

(** X2. [Authenticate] reports an authenticated user exactly when the
    request reaches the success outcome.  When it does, the error is nil and
    the response writer is as it was; when it does not, the user returned
    is the zero value. *)
Theorem Authenticate_authenticated m st :
  ((Authenticate m st).1.1.2 = true ↔ reaches m st Success) ∧
  ((Authenticate m st).1.1.2 = true ->
     (Authenticate m st).1.2 = None ∧ resp (Authenticate m st).2 = resp st) ∧
  ((Authenticate m st).1.1.2 = false ->
     (Authenticate m st).1.1.1 = caddyauth.zero).
Proof.
  destruct (Authenticate_cases m st)
    as [[Hpf Hrun]|[(Hpf & err & st1 & Hbind & Hrun)
                   |(Hpf & m1 & st1 & v & st2 & Hbind & Hval & Hrun)]].
  - rewrite Hrun. simpl. split; [|done]. split; [done|].
    intros Hr. inversion Hr; congruence.
  - rewrite Hrun. simpl. split; [|done]. split; [done|].
    intros Hr. inversion Hr; congruence.
  - rewrite Hrun. destruct (bound_frame _ _ _ _ _ _ Hbind Hval) as [<- _].
    destruct v as [[c valid] e].
    destruct (decide (e ≠ None ∨ valid = false ∨ c = None)) as [Hfail|Hok].
    + destruct (respond_failure m1 c valid e st2 Hfail) as [-> _]. simpl.
      split; [|done]. split; [done|].
      intros Hr. inversion Hr; subst.
      assert (m0 = m1 ∧ st0 = st1) as [-> ->] by (split; congruence).
      assert (c = Some c0 ∧ valid = true ∧ e = None) as (-> & -> & ->)
        by (repeat split; congruence).
      destruct Hfail as [?|[?|?]]; done.
    + destruct c as [c|], valid, e as [e|];
        try (exfalso; apply Hok; by eauto).
      unfold respond. simpl.
      destruct (identify_facts m1 c st2) as (Hflag & Herr & Hresp & _).
      rewrite Hflag, Herr, Hresp. split; [|done]. split; [|done].
      intros _. by eapply reaches_success.
Qed.

(** X3. [Authenticate] changes the request only on the success outcome:
    whenever it reports no authenticated user, the request is exactly as it
    arrived. *)
Theorem Authenticate_request_kept m st :
  (Authenticate m st).1.1.2 = false ->
  req (Authenticate m st).2 = req st.
Proof.
  destruct (Authenticate_cases m st)
    as [[Hpf Hrun]|[(Hpf & err & st1 & Hbind & Hrun)
                   |(Hpf & m1 & st1 & v & st2 & Hbind & Hval & Hrun)]];
    rewrite Hrun.
  - done.
  - intros _. by destruct (lazyBind_frame _ _ _ _ Hbind) as (_ & <- & _).
  - destruct (bound_frame _ _ _ _ _ _ Hbind Hval) as [_ <-].
    destruct v as [[c valid] e].
    destruct (decide (e ≠ None ∨ valid = false ∨ c = None)) as [Hfail|Hok].
    + intros _. by destruct (respond_failure m1 c valid e st2 Hfail) as [_ ->].
    + destruct c as [c|], valid, e as [e|];
        try (exfalso; apply Hok; by eauto).
      unfold respond. simpl.
      destruct (identify_facts m1 c st2) as (Hflag & _). by rewrite Hflag.
Qed.

(** X4. On success the identity's metadata holds [name] exactly when the
    claim set has a non-empty name and [email] exactly when it has a
    non-empty email, each with the claim's value, and holds no key besides
    [roles], [name] and [email]. *)
Theorem Authenticate_identity_metadata m st m1 st1 (c : UserClaims) st2 :
  ProvisionFailed m = false ->
  lazyBind m st = (inr m1, st1) ->
  validate m1 st1 = ((Some c, true, None), st2) ->
  let user := (Authenticate m st).1.1.1 in
  (claims_Name c ≠ "" -> caddyauth.Metadata user !! "name" = Some (claims_Name c)) ∧
  (claims_Name c = "" -> caddyauth.Metadata user !! "name" = None) ∧
  (Email c ≠ "" -> caddyauth.Metadata user !! "email" = Some (Email c)) ∧
  (Email c = "" -> caddyauth.Metadata user !! "email" = None) ∧
  (∀ key, key ≠ "roles" -> key ≠ "name" -> key ≠ "email" ->
     caddyauth.Metadata user !! key = None).
Proof.
  intros Hpf Hbind Hval.
  rewrite (Authenticate_bound _ _ _ _ _ _ Hpf Hbind Hval).
  unfold respond. simpl.
  destruct (identify_facts m1 c st2) as (_ & _ & _ & _ & _ & Hname & Hemail & Hrest).
  rewrite Hname, Hemail.
  destruct (bool_decide_reflect (claims_Name c = "")),
    (bool_decide_reflect (Email c = "")); repeat split; try done.
Qed.

(** X5. With method and path validation disabled the validator is handed
    the configured options pointer itself: nothing is allocated or written,
    the heap after the call is the heap before it. *)
Theorem Authenticate_shares_options m st m1 st1 :
  ProvisionFailed m = false ->
  lazyBind m st = (inr m1, st1) ->
  ValidateMethodPath m1 = false ->
  heap (Authenticate m st).2 = heap st ∧
  calls (Authenticate m st).2 =
    calls st1 ++ [CallAuthorize (req st) (m_TokenValidatorOptions m1)
                    (heap st !!! m_TokenValidatorOptions m1)].
Proof.
  intros Hpf Hbind Hvmp.
  destruct (lazyBind_frame _ _ _ _ Hbind) as (_ & Hreq & Hheap).
  assert (Hval : validate m1 st1 =
    (Authorize (m_TokenValidator m1) (req st1) (heap st1 !!! m_TokenValidatorOptions m1),
     {| resp := resp st1; req := req st1; pool := pool st1; heap := heap st1;
        calls := calls st1 ++ [CallAuthorize (req st1) (m_TokenValidatorOptions m1)
                                 (heap st1 !!! m_TokenValidatorOptions m1)] |})).
  { unfold validate, prepareOptions, tv_Authorize. rewrite Hvmp. reflexivity. }
  rewrite (Authenticate_bound _ _ _ _ _ _ Hpf Hbind Hval).
  match goal with
  | |- context [respond m1 ?v ?s] =>
      destruct (respond_frame m1 v s) as (_ & -> & ->)
  end.
  simpl. by rewrite Hreq, Hheap.
Qed.

(** X6. A request that ends in a provisioning failure never reaches the
    validator.  Every other request calls it exactly once, as the last call
    to a collaborator, with the request as it arrived. *)
Theorem Authenticate_validator_calls m st (o : Outcome) :
  reaches m st o ->
  ∃ new,
    calls (Authenticate m st).2 = calls st ++ new ∧
    match o with
    | ProvisioningFailure => List.filter isAuthorize new = []
    | _ =>
        ∃ opts options,
          List.filter isAuthorize new = [CallAuthorize (req st) opts options] ∧
          last new = Some (CallAuthorize (req st) opts options)
    end.
Proof.
  intros Hreach.
  assert (Hbound : ∀ m1 st1 v st2,
    ProvisionFailed m = false -> lazyBind m st = (inr m1, st1) ->
    validate m1 st1 = (v, st2) ->
    ∃ new, calls (Authenticate m st).2 = calls st ++ new ∧
      ∃ opts options,
        List.filter isAuthorize new = [CallAuthorize (req st) opts options] ∧
        last new = Some (CallAuthorize (req st) opts options)).
  { intros m1 st1 v st2 Hpf Hbind Hval.
    rewrite (Authenticate_bound _ _ _ _ _ _ Hpf Hbind Hval).
    destruct (respond_frame m1 v st2) as (_ & _ & ->).
    destruct (validate_frame _ _ _ _ Hval) as (_ & _ & _ & opts & -> & _).
    destruct (lazyBind_frame _ _ _ _ Hbind) as (_ & -> & _).
    rewrite lazyBind_run in Hbind.
    destruct (Provisioned m); injection Hbind as _ <-; simpl.
    - eexists [_]. split; [done|]. by eexists _, _.
    - eexists [_; _]. rewrite <- app_assoc. split; [done|]. by eexists _, _. }
  destruct Hreach as [Hpf|err st1 Hpf Hbind|m1 st1 c valid e st2 Hpf Hbind Hval Hmark
                     |m1 st1 c valid e st2 Hpf Hbind Hval Hmark
                     |m1 st1 c st2 Hpf Hbind Hval|m1 st1 st2 Hpf Hbind Hval
                     |m1 st1 c st2 Hpf Hbind Hval]; eauto.
  - exists []. unfold Authenticate. rewrite Hpf. simpl. by rewrite app_nil_r.
  - rewrite (Authenticate_unbound _ _ _ _ Hpf Hbind).
    rewrite lazyBind_run in Hbind.
    destruct (Provisioned m); injection Hbind as Hres <-; [discriminate Hres|].
    by eexists [_].
Qed.

(** X7. The forbidden-role marker is looked for anywhere in the error's
    text: whatever stands before and after it, the request is answered as
    forbidden, with status 303 or 403 and the body [Forbidden], and no
    cookie is expired. *)
Theorem Authenticate_marker_anywhere m st m1 st1 c valid (e : error) st2
    (pre post : string) :
  ProvisionFailed m = false ->
  lazyBind m st = (inr m1, st1) ->
  validate m1 st1 = ((c, valid, Some e), st2) ->
  Error e = pre +:+ forbiddenMarker +:+ post ->
  reaches m st Forbidden ∧
  (Authenticate m st).1 = (caddyauth.zero, false, Some e) ∧
  http.rw_codes (resp (Authenticate m st).2) =
    http.rw_codes (resp st) ++
    [if bool_decide (ForbiddenURL m1 = "") then 403%Z else 303%Z] ∧
  http.rw_body (resp (Authenticate m st).2) = http.rw_body (resp st) ++ ["Forbidden"] ∧
  http.rw_header (resp (Authenticate m st).2) !! "Set-Cookie"
    = http.rw_header (resp st) !! "Set-Cookie".
Proof.
  intros Hpf Hbind Hval Htext.
  assert (Hmark : strings.Contains (Error e) forbiddenMarker = true).
  { apply Contains_spec. by exists pre, post. }
  split; [by eapply reaches_forbidden|].
  rewrite (Authenticate_bound _ _ _ _ _ _ Hpf Hbind Hval).
  destruct (bound_frame _ _ _ _ _ _ Hbind Hval) as [<- _].
  unfold respond. rewrite Hmark.
  destruct (bool_decide (ForbiddenURL m1 = "")); step; repeat split; try done.
  unfold http.Header_Set. by rewrite lookup_insert_ne.
Qed.


(** No call changes an options object the heap already holds. *)
Lemma Authenticate_heap_kept m st (q : loc) (o : TokenValidatorOptions) :
  heap st !! q = Some o -> heap (Authenticate m st).2 !! q = Some o.
Proof.
  intros Hq.
  destruct (Authenticate_cases m st)
    as [[Hpf ->]|[(Hpf & err & st1 & Hbind & ->)
                 |(Hpf & m1 & st1 & v & st2 & Hbind & Hval & ->)]].
  - done.
  - simpl. by destruct (lazyBind_frame _ _ _ _ Hbind) as (_ & _ & ->).
  - destruct (respond_frame m1 v st2) as (_ & -> & _).
    assert (st2 = (validate m1 st1).2) as -> by by rewrite Hval.
    apply validate_heap.
    by destruct (lazyBind_frame _ _ _ _ Hbind) as (_ & _ & ->).
Qed.

(** X9. Nothing of a request stays behind in the options.  When a
    provisioned instance with method and path validation handles a request
    and then a second one, the validator receives for the second request the
    configured options with the second request's method and path, whatever
    the first request was and however it ended. *)
Theorem Authenticate_no_leak m st (r2 : http.Request) (o0 : TokenValidatorOptions) :
  ProvisionFailed m = false ->
  Provisioned m = true ->
  ValidateMethodPath m = true ->
  heap st !! m_TokenValidatorOptions m = Some o0 ->
  ∃ opts,
    last (calls (Authenticate m (with_req (λ _, r2) (Authenticate m st).2)).2)
    = Some (CallAuthorize r2 opts
              (Metadata_set "path" (http.URL_Path r2)
                 (Metadata_set "method" (http.Method r2) o0))).
Proof.
  intros Hpf Hprov Hvmp Hconf.
  pose proof (Authenticate_heap_kept m st _ _ Hconf) as Hkept.
  set (st' := with_req (λ _, r2) (Authenticate m st).2).
  assert (Hbind : lazyBind m st' = (inr m, st')).
  { rewrite lazyBind_run. by rewrite Hprov. }
  pose proof (validate_clone m st' Hvmp) as Hval. simpl in Hval.
  rewrite (Authenticate_bound _ _ _ _ _ _ Hpf Hbind Hval).
  match goal with
  | |- context [respond m ?v ?s] => destruct (respond_frame m v s) as (_ & _ & ->)
  end.
  simpl. apply lookup_total_correct in Hkept. rewrite Hkept.
  eexists. apply last_snoc.
Qed.

(** The response to a verdict reads nothing off the writer. *)
Lemma respond_writer_blind m (v : Verdict) st (w : http.ResponseWriter) :
  (respond m v (with_resp (λ _, w) st)).1 = (respond m v st).1 ∧
  req (respond m v (with_resp (λ _, w) st)).2 = req (respond m v st).2.
Proof.
  destruct v as [[c valid] e].
  destruct (decide (e ≠ None ∨ valid = false ∨ c = None)) as [Hfail|Hok].
  - destruct (respond_failure m c valid e st Hfail) as [-> ->].
    by destruct (respond_failure m c valid e (with_resp (λ _, w) st) Hfail)
      as [-> ->].
  - destruct c as [c|], valid, e as [e|];
      try (exfalso; apply Hok; by eauto).
    unfold respond, identify, caddyauth.Metadata_set. simpl.
    destruct (bool_decide (claims_Name c = "")), (bool_decide (Email c = "")),
      (PassClaimsWithHeaders m), (bool_decide (0 < length (Roles c))%nat),
      (bool_decide (Subject c = "")); step; done.
Qed.

(** X14. [Authenticate] reads nothing off the response writer: started
    with any other writer it returns the same triple, leaves the same
    request, pool and heap, and makes the same calls. *)
Theorem Authenticate_writer_blind m st (w : http.ResponseWriter) :
  (Authenticate m (with_resp (λ _, w) st)).1 = (Authenticate m st).1 ∧
  req (Authenticate m (with_resp (λ _, w) st)).2 = req (Authenticate m st).2 ∧
  pool (Authenticate m (with_resp (λ _, w) st)).2 = pool (Authenticate m st).2 ∧
  heap (Authenticate m (with_resp (λ _, w) st)).2 = heap (Authenticate m st).2 ∧
  calls (Authenticate m (with_resp (λ _, w) st)).2 = calls (Authenticate m st).2.
Proof.
  assert (Hbindw : lazyBind m (with_resp (λ _, w) st) =
    ((lazyBind m st).1, with_resp (λ _, w) (lazyBind m st).2)).
  { rewrite !lazyBind_run. by destruct (Provisioned m). }
  assert (Hvalw : ∀ m1 st1, validate m1 (with_resp (λ _, w) st1) =
    ((validate m1 st1).1, with_resp (λ _, w) (validate m1 st1).2)).
  { intros m1 st1.
    unfold validate, prepareOptions, tv_Authorize, opts_Clone, opts_Metadata_set, Clone.
    by destruct (ValidateMethodPath m1). }
  destruct (Authenticate_cases m st)
    as [[Hpf ->]|[(Hpf & err & st1 & Hbind & ->)
                 |(Hpf & m1 & st1 & v & st2 & Hbind & Hval & ->)]].
  - unfold Authenticate. rewrite Hpf. done.
  - rewrite Hbind in Hbindw.
    rewrite (Authenticate_unbound _ _ _ _ Hpf Hbindw). done.
  - rewrite Hbind in Hbindw. simpl in Hbindw.
    pose proof (Hvalw m1 st1) as Hvalw1. rewrite Hval in Hvalw1. simpl in Hvalw1.
    rewrite (Authenticate_bound _ _ _ _ _ _ Hpf Hbindw Hvalw1).
    destruct (respond_writer_blind m1 v st2 w) as [-> ->].
    destruct (respond_frame m1 v (with_resp (λ _, w) st2)) as (-> & -> & ->).
    destruct (respond_frame m1 v st2) as (-> & -> & ->). done.
Qed.

End EngineFurther.

(** ** The provider's life cycle *)

Lemma string_app_empty_r (s : string) : s +:+ "" = s.
Proof.
  induction s as [|c s IH]; [reflexivity|].
  change (String c (s +:+ "") = String c s). by rewrite IH.
Qed.

Section LifecycleProperties.

Context {E : Collaborators}.
Variable Register : Pool -> AuthProvider -> Pool * AuthProvider * option error.

(** X10. [AuthProvider.Provision] fails exactly when the registration
    fails.  Its error is a new one whose text names the instance, as the
    registration left it, and ends in the text of the registration's error.
    Pool and instance are as the registration left them. *)
Theorem AuthProvider_Provision_error (m : AuthProvider) (p : Pool) :
  (AuthProvider_Provision Register m p).1 = (Register p m).1 ∧
  ((AuthProvider_Provision Register m p).2 = None ↔ (Register p m).2 = None) ∧
  (∀ cause, (Register p m).2 = Some cause ->
     ∃ e, (AuthProvider_Provision Register m p).2 = Some e ∧
          Error e = "authentication provider registration error, instance "
                    +:+ Name (Register p m).1.2 +:+ ", error: " +:+ Error cause).
Proof.
  unfold AuthProvider_Provision.
  destruct (Register p m) as [[p' m'] [cause|]]; simpl.
  - split; [done|]. split; [done|]. intros ? [= <-].
    eexists. split; [reflexivity|]. simpl.
    by rewrite string_app_empty_r.
  - split; [done|]. split; [done|]. done.
Qed.

End LifecycleProperties.

(** ** More about the grantor *)

Section GrantorFurther.

Variable methods : gset string.

Lemma secret_bytes (secret : string) :
  secret ≠ "" -> list_byte_of_string secret ≠ [].
Proof.
  intros Hne Hnil. apply Hne.
  rewrite <- (string_of_list_byte_of_string secret). by rewrite Hnil.
Qed.

(** X11. [GrantToken] consults the signing routine at one point only: for
    a registered method, claims that are not nil and the bytes of the
    secret, which are not empty.  Two signing routines that agree there give
    the same result. *)
Theorem GrantToken_signer_use
    (sign1 sign2 : UserClaims -> string -> list Byte.byte -> string * option error)
    (g : TokenGrantor) (method : string) (claims : option UserClaims) :
  (∀ c key,
     method ∈ methods -> claims = Some c ->
     key = list_byte_of_string (TokenSecret g) -> key ≠ [] ->
     sign1 c method key = sign2 c method key) ->
  GrantToken methods sign1 g method claims = GrantToken methods sign2 g method claims.
Proof.
  intros Hagree. unfold GrantToken.
  destruct (bool_decide_reflect (method ∈ methods)) as [Hin|Hout]; simpl; [|done].
  destruct claims as [c|]; [|done].
  destruct (bool_decide_reflect (TokenSecret g = "")) as [Hs|Hs]; [done|].
  apply Hagree; try done. by apply secret_bytes.
Qed.

(** X12. A token that is not empty can only come from the signing routine:
    then the grantor passes [Validate], the method is registered, the claims
    are not nil, and the result is the routine's. *)
Theorem GrantToken_token_origin
    (sign : UserClaims -> string -> list Byte.byte -> string * option error)
    (g : TokenGrantor) (method : string) (claims : option UserClaims) :
  (GrantToken methods sign g method claims).1 ≠ "" ->
  Validate g = None ∧ method ∈ methods ∧
  ∃ c, claims = Some c ∧
       GrantToken methods sign g method claims
       = sign c method (list_byte_of_string (TokenSecret g)).
Proof.
  unfold GrantToken, Validate.
  destruct (bool_decide_reflect (method ∈ methods)) as [Hin|Hout]; simpl; [|done].
  destruct claims as [c|]; [|done].
  destruct (bool_decide_reflect (TokenSecret g = "")) as [Hs|Hs]; [done|].
  intros _. split; [done|]. split; [done|]. by exists c.
Qed.

(** X13. A grantor that does not pass [Validate], as the one
    [NewTokenGrantor] returns, grants nothing: for every method, claims and
    signing routine [GrantToken] returns the empty token and an error. *)
Theorem GrantToken_needs_secret
    (sign : UserClaims -> string -> list Byte.byte -> string * option error)
    (g : TokenGrantor) (method : string) (claims : option UserClaims) :
  Validate NewTokenGrantor = Some ErrEmptySecret ∧
  (Validate g ≠ None ->
     (GrantToken methods sign g method claims).1 = "" ∧
     is_Some (GrantToken methods sign g method claims).2).
Proof.
  split; [reflexivity|].
  unfold GrantToken, Validate.
  destruct (bool_decide (method ∈ methods)); simpl; [|by eauto].
  destruct claims as [c|]; [|by eauto].
  destruct (bool_decide (TokenSecret g = "")); [by eauto|done].
Qed.

End GrantorFurther.

(** ** The further properties at work on the sample deployment *)

Lemma Authenticate_bind_failure_witness :
  (Authenticate (E := Sample.deployment) Sample.unbound (Cases.stranded "alice")).1
    = (caddyauth.zero, false, Some ErrProvisonFailed) ∧
  http.rw_codes
    (resp (Authenticate (E := Sample.deployment) Sample.unbound (Cases.stranded "alice")).2)
    = [500%Z] ∧
  calls (Authenticate (E := Sample.deployment) Sample.unbound (Cases.stranded "alice")).2
    = [CallProvision "portal"].
Proof.
  destruct (Authenticate_bind_failure (E := Sample.deployment)
              Sample.unbound (Cases.stranded "alice") ErrProvisonFailed
              eq_refl eq_refl eq_refl)
    as (Hout & Hcodes & _ & _ & _ & _ & _ & Hcalls).
  split; [exact Hout|]. split; [exact Hcodes|exact Hcalls].
Defined.

Lemma Authenticate_authenticated_witness :
  reaches (E := Sample.deployment) Sample.portal (Sample.arrival "alice") Success ∧
  (Authenticate (E := Sample.deployment) Sample.portal (Sample.arrival "alice")).1.2
    = None ∧
  (Authenticate (E := Sample.deployment) Sample.portal (Sample.arrival "guest")).1.1.1
    = caddyauth.zero.
Proof.
  destruct (Authenticate_authenticated (E := Sample.deployment)
              Sample.portal (Sample.arrival "alice")) as (Hiff & Hok & _).
  split; [exact (proj1 Hiff eq_refl)|]. split; [exact (proj1 (Hok eq_refl))|].
  destruct (Authenticate_authenticated (E := Sample.deployment)
              Sample.portal (Sample.arrival "guest")) as (_ & _ & Hzero).
  exact (Hzero eq_refl).
Defined.

Lemma Authenticate_request_kept_witness :
  req (Authenticate (E := Sample.deployment) Sample.portal (Sample.arrival "guest")).2
  = Sample.request "guest".
Proof.
  exact (Authenticate_request_kept (E := Sample.deployment)
           Sample.portal (Sample.arrival "guest") eq_refl).
Defined.

Lemma Authenticate_identity_metadata_witness :
  caddyauth.Metadata
    (Authenticate (E := Sample.deployment) Sample.portal (Sample.arrival "alice")).1.1.1
    !! "name" = Some "Alice" ∧
  caddyauth.Metadata
    (Authenticate (E := Sample.deployment) Sample.portal (Sample.arrival "bare")).1.1.1
    !! "name" = None.
Proof.
  split.
  - exact (proj1 (Authenticate_identity_metadata (E := Sample.deployment)
                    Sample.portal (Sample.arrival "alice")
                    Sample.portal (Sample.arrival "alice") Sample.alice
                    (validate Sample.portal (Sample.arrival "alice")).2
                    eq_refl eq_refl eq_refl) ltac:(discriminate)).
  - exact (proj1 (proj2 (Authenticate_identity_metadata (E := Sample.deployment)
                    Sample.portal (Sample.arrival "bare")
                    Sample.portal (Sample.arrival "bare") Sample.bare
                    (validate Sample.portal (Sample.arrival "bare")).2
                    eq_refl eq_refl eq_refl)) eq_refl).
Defined.

Lemma Authenticate_shares_options_witness :
  ValidateMethodPath Cases.plain = false ∧
  heap (Authenticate (E := Sample.deployment) Cases.plain (Sample.arrival "alice")).2
    = heap (Sample.arrival "alice") ∧
  calls (Authenticate (E := Sample.deployment) Cases.plain (Sample.arrival "alice")).2
    = [CallAuthorize (Sample.request "alice") 1%positive {| Metadata := ∅ |}].
Proof.
  split; [reflexivity|].
  exact (Authenticate_shares_options (E := Sample.deployment)
           Cases.plain (Sample.arrival "alice")
           Cases.plain (Sample.arrival "alice") eq_refl eq_refl eq_refl).
Defined.

Lemma Authenticate_validator_calls_witness :
  ∃ new,
    calls (Authenticate (E := Sample.deployment) Sample.unbound (Sample.arrival "intern")).2
      = new ∧
    ∃ opts options,
      List.filter isAuthorize new = [CallAuthorize (Sample.request "intern") opts options].
Proof.
  destruct (Authenticate_validator_calls (E := Sample.deployment)
              Sample.unbound (Sample.arrival "intern") Forbidden
              (reaches_forbidden (E := Sample.deployment)
                 Sample.unbound (Sample.arrival "intern")
                 Sample.portal (lazyBind Sample.unbound (Sample.arrival "intern")).2
                 None false
                 (errorString "user role is valid, but not allowed by access list")
                 (validate Sample.portal
                    (lazyBind Sample.unbound (Sample.arrival "intern")).2).2
                 eq_refl eq_refl eq_refl eq_refl))
    as (new & Hcalls & opts & options & Hfilter & _).
  exists new. split; [exact Hcalls|]. exists opts, options. exact Hfilter.
Defined.

Lemma Authenticate_marker_anywhere_witness :
  reaches (E := Sample.deployment) Sample.portal (Sample.arrival "intern") Forbidden ∧
  http.rw_header
    (resp (Authenticate (E := Sample.deployment) Sample.portal (Sample.arrival "intern")).2)
    !! "Set-Cookie" = None.
Proof.
  destruct (Authenticate_marker_anywhere (E := Sample.deployment)
              Sample.portal (Sample.arrival "intern")
              Sample.portal (Sample.arrival "intern") None false
              (errorString "user role is valid, but not allowed by access list")
              (validate Sample.portal (Sample.arrival "intern")).2
              "" " access list" eq_refl eq_refl eq_refl eq_refl)
    as (Hreach & _ & _ & _ & Hcookie).
  split; [exact Hreach|exact Hcookie].
Defined.


Lemma Authenticate_no_leak_witness :
  ∃ opts,
    last (calls (Authenticate (E := Sample.deployment) Sample.portal
                   (with_req (λ _, Sample.request "guest")
                      (Authenticate (E := Sample.deployment) Sample.portal
                         (Sample.arrival "alice")).2)).2)
    = Some (CallAuthorize (Sample.request "guest") opts
              (Metadata_set "path" "/app" (Metadata_set "method" "GET"
                 {| Metadata := ∅ |}))).
Proof.
  exact (Authenticate_no_leak (E := Sample.deployment)
           Sample.portal (Sample.arrival "alice") (Sample.request "guest")
           {| Metadata := ∅ |} eq_refl eq_refl eq_refl eq_refl).
Defined.

Lemma AuthProvider_Provision_error_witness :
  ∃ e,
    (AuthProvider_Provision (E := Sample.deployment) sampleRegister
       Cases.nameless (∅ : gmap string AuthProvider)).2 = Some e ∧
    Error e =
      "authentication provider registration error, instance , error: empty provider name".
Proof.
  destruct (AuthProvider_Provision_error (E := Sample.deployment) sampleRegister
              Cases.nameless (∅ : gmap string AuthProvider)) as (_ & _ & Hfail).
  exact (Hfail (strError "empty provider name") eq_refl).
Defined.

Lemma GrantToken_signer_use_witness :
  GrantToken Sample.signingMethods Sample.sign {| TokenSecret := "key" |} "HS256"
    (Some Sample.alice)
  = GrantToken Sample.signingMethods Cases.careless {| TokenSecret := "key" |} "HS256"
      (Some Sample.alice).
Proof.
  apply (GrantToken_signer_use Sample.signingMethods Sample.sign Cases.careless).
  intros c key _ _ _ Hkey. destruct key; [by destruct Hkey|reflexivity].
Defined.

Lemma GrantToken_token_origin_witness :
  Validate {| TokenSecret := "key" |} = None ∧
  "HS256" ∈ Sample.signingMethods.
Proof.
  destruct (GrantToken_token_origin Sample.signingMethods Sample.sign
              {| TokenSecret := "key" |} "HS256" (Some Sample.alice)
              ltac:(discriminate)) as (Hvalid & Hin & _).
  split; [exact Hvalid|exact Hin].
Defined.

Lemma GrantToken_needs_secret_witness :
  (GrantToken Sample.signingMethods Sample.sign NewTokenGrantor "HS256"
     (Some Sample.alice)).1 = "".
Proof.
  exact (proj1 (proj2 (GrantToken_needs_secret Sample.signingMethods Sample.sign
                         NewTokenGrantor "HS256" (Some Sample.alice))
                  ltac:(discriminate))).
Defined.
